(** * The research loop of [src/agent.ts]

    A shallow embedding of [getSchema], [getPrompt] and [getResponse], and
    the properties of the loop controller stated over it.

    The loop of [getResponse] talks to six collaborators that live outside
    the file (the model, the answer evaluator, the deduplicator, the query
    rewriter, the search provider and the page reader).  They are gathered
    in a [World]; every call is logged as an [Event], and the answer of a
    collaborator may depend on everything that was logged before the call.
    The mutable variables of [getResponse] live in a [Heap] that is
    threaded by a small monad with the three ways a JavaScript block can
    complete: normally, by [return], or by a thrown error.  The [while]
    loop need not end, so it is run with a bound on the number of its
    turns. *)

From Stdlib Require Import String Ascii List Bool Arith ZArith Lia.
Import ListNotations.
Local Open Scope string_scope.
Local Open Scope list_scope.

Set Implicit Arguments.

(** ** Values exchanged with the model *)

(** One element of [references] in the response schema. *)
Record Reference := mkReference { title : string; url : string }.

(** The object obtained from [JSON.parse(response.text())].  A key that
    is absent from the object reads as [undefined], here [None]. *)
Record Action := mkAction {
  action : string;
  searchQuery : option string;
  URLTargets : option (list string);
  answer : option string;
  references : option (list Reference);
  reasoning : option string;
  questionsToAnswer : option (list string)
}.

(** JavaScript truthiness of the optional fields that the loop tests. *)
Definition truthy_string (s : option string) : bool :=
  match s with
  | Some s' => negb (String.eqb s' "")
  | None => false
  end.

(** [xs?.length] used as a condition: a missing array and an empty one
    are both falsy. *)
Definition has_length {A : Type} (xs : option (list A)) : bool :=
  match xs with
  | Some (_ :: _) => true
  | _ => false
  end.

(** ** The response schema, [getSchema] *)

#[local] Unset Elimination Schemes.
Inductive Schema : Type :=
| StringSchema (enum : option (list string)) (description : option string)
| ArraySchema (items : Schema) (description : option string)
              (maxItems : option nat)
| ObjectSchema (properties : list (string * Schema)) (required : list string).

#[local] Set Elimination Schemes.

Record ResponseSchema := mkResponseSchema {
  p_action : Schema;
  p_questionsToAnswer : option Schema;
  p_searchQuery : Schema;
  p_URLTargets : Schema;
  p_answer : Schema;
  p_references : Schema;
  p_reasoning : Schema;
  required : list string
}.

Definition getSchema (allowReflect : bool) : ResponseSchema :=
  {| p_action :=
       StringSchema
         (Some (if allowReflect
                then ["search"; "deep dive"; "answer"; "reflect"]
                else ["search"; "deep dive"; "answer"]))
         (Some "Must match exactly one action type");
     p_questionsToAnswer :=
       if allowReflect
       then Some (ArraySchema
              (StringSchema None
                 (Some "each question must be a single line, concise and clear. not composite or compound, less than 20 words."))
              (Some "Only required when choosing 'reflect' action, list of most important questions to answer to fill the knowledge gaps.")
              (Some 2))
       else None;
     p_searchQuery :=
       StringSchema None
         (Some "Only required when choosing 'search' action, must be a short, keyword-based query that BM25, tf-idf based search engines can understand.");
     p_URLTargets :=
       ArraySchema (StringSchema None None)
         (Some "Only required when choosing 'deep dive' action, must be an array of URLs")
         None;
     p_answer :=
       StringSchema None
         (Some "Only required when choosing 'answer' action, must be the final answer in natural language");
     p_references :=
       ArraySchema
         (ObjectSchema
            [("title", StringSchema None
                 (Some "Title of the document; must be directly from the context"));
             ("url", StringSchema None
                 (Some "URL of the document; must be directly from the context"))]
            ["title"; "url"])
         (Some "Only required when choosing 'answer' action, must be an array of references")
         None;
     p_reasoning :=
       StringSchema None (Some "Explain why choose this action?");
     required := ["action"; "reasoning"] |}.

(** The action tags that a schema lets the model choose from. *)
Definition allowed_actions (s : ResponseSchema) : list string :=
  match p_action s with
  | StringSchema (Some tags) _ => tags
  | _ => []
  end.

(** ** Context entries *)

Record SearchHit := mkSearchHit {
  hit_title : string; hit_url : string; hit_description : string
}.

(** [{query, results: minResults}] *)
Record SearchResult := mkSearchResult {
  sr_query : string; sr_results : list SearchHit
}.

(** What [readUrl] resolves to; only [data.usage.tokens] is read by the
    loop, the rest of the payload is carried as [rr_content]. *)
Record ReadResponse := mkReadResponse {
  rr_content : string; rr_tokens : Z
}.

(** [{url, result: response}] *)
Record UrlResult := mkUrlResult {
  ur_url : string; ur_result : ReadResponse
}.

Inductive StepResult : Type :=
| NoResult
| SearchResults (rs : list SearchResult)
| UrlResults (rs : list UrlResult).

(** [{step, question: currentQuestion, ...action, result}]; the answer
    branch pushes an entry without [result]. *)
Record ContextEntry := mkContextEntry {
  ce_step : nat;
  ce_question : string;
  ce_action : Action;
  ce_result : StepResult
}.

(** ** The prompt, [getPrompt] *)

Definition nl : string := String (ascii_of_nat 10) EmptyString.
Definition dquote : string := String (ascii_of_nat 34) EmptyString.

(** The pieces of a template literal, one per line of the source. *)
Definition lines (ls : list string) : string := String.concat nl ls.
Definition cat (ls : list string) : string := String.concat "" ls.

Section Prompt.

(** [JSON.stringify(_, null, 2)] on a list of context entries. *)
Variable JSON_stringify : list ContextEntry -> string.

Definition badContextIntro (badContext : option (list ContextEntry)) : string :=
  match badContext with
  | Some ((_ :: _) as bad) =>
      lines
        ["Your last unsuccessful answer contains these previous actions and knowledge:";
         cat ["    "; JSON_stringify bad];
         "    ";
         "    Learn to avoid these mistakes and think of a new approach, from a different angle, e.g. search for different keywords, read different URLs, or ask different questions.";
         "    "]
  | _ => ""
  end.

Definition contextIntro (context : option (list ContextEntry)) : string :=
  match context with
  | Some ((_ :: _) as ctx) =>
      lines
        ["Your current context contains these previous actions and knowledge:";
         cat ["    "; JSON_stringify ctx];
         "    "]
  | _ => ""
  end.

Definition reflectSection (allQuestions : option (list string)) : string :=
  cat [nl; nl;
       lines
         ["**reflect**:";
          "- Perform critical analysis through hypothetical scenarios or systematic breakdowns";
          "- Identify knowledge gaps and formulate essential clarifying questions";
          "- Questions must be:";
          "  - Original (not variations of existing questions)";
          "  - Focused on single concepts";
          "  - Under 20 words";
          "  - Non-compound/non-complex";
          (if has_length allQuestions
           then cat ["Existing questions you have asked, make sure to not repeat them:";
                     nl; " ";
                     String.concat nl (match allQuestions with
                                       | Some qs => qs
                                       | None => []
                                       end)]
           else "");
          "  "]].

Definition actionsDescription (question : string)
           (allQuestions : option (list string)) (allowReflect : bool) : string :=
  cat [lines
         [""; (* the template opens with a line break *)
          "Using your training data and prior lessons learned, answer the following question with absolute certainty:";
          "";
          question;
          "";
          "When uncertain or needing additional information, select one of these actions:";
          "";
          "**search**:";
          "- Query external sources using a public search engine";
          "- Focus on solving one specific aspect of the question";
          "- Only give keywords search query, not full sentences";
          "";
          "**deep dive**:";
          "- When you have enough search result and want to deep dive into specific URLs";
          "- It allows you access the full content behind specific URLs";
          "";
          "**answer**:";
          "- Provide final response only when 100% certain";
          "- Responses must be definitive (no ambiguity, uncertainty, or disclaimers)";
          (if allowReflect
           then cat ["- If doubts remain, use "; dquote; "reflect"; dquote; " instead"]
           else "")];
       (if allowReflect then reflectSection allQuestions else "")].

(** [getPrompt(question, context?, allQuestions?, allowReflect = false,
    badContext?)]; an argument left out at the call site is [None]. *)
Definition getPrompt (question : string)
           (context : option (list ContextEntry))
           (allQuestions : option (list string))
           (allowReflect : bool)
           (badContext : option (list ContextEntry)) : string :=
  cat [lines
         [cat ["You are an advanced AI research analyst specializing in multi-step reasoning.";
               contextIntro context;
               badContextIntro badContext;
               actionsDescription question allQuestions allowReflect];
          "";
          "Respond exclusively in valid JSON format matching exact JSON schema.";
          "";
          "Critical Requirements:";
          "- Include ONLY ONE action type";
          "- Never add unsupported keys";
          "- Exclude all non-JSON text, markdown, or explanations";
          "- Maintain strict JSON syntax"]].

End Prompt.

(** ** The collaborators *)

(** Every await on a collaborator either resolves or rejects. *)
Inductive Promise (A : Type) : Type :=
| Resolves (a : A)
| Rejects (e : string).
Arguments Rejects {A} e.

(** What the loop reads from the model's response:
    [usageMetadata?.totalTokenCount] and [JSON.parse(response.text())],
    the latter [None] when the text is not valid JSON. *)
Record GenerateContentResponse := mkResponse {
  totalTokenCount : option Z;
  parsed : option Action
}.

(** The calls that leave [getResponse], with their arguments. *)
Inductive Event : Type :=
| EvSleep (ms : nat)
| EvGenerateContent (prompt : string) (schema : ResponseSchema)
| EvEvaluateAnswer (question : string) (candidate : option string)
| EvDedupQueries (newQueries existingQueries : list string)
| EvRewriteQuery (query : string)
| EvSearch (query : string)
| EvReadUrl (target : string)
| EvStoreContext (context : list ContextEntry) (keywords questions : list string).

(** The environment of a run.  Each collaborator is given the log of all
    earlier calls, so it may answer differently every time. *)
Record World := mkWorld {
  JSON_stringify : list ContextEntry -> string;
  generateContent : list Event -> string -> ResponseSchema ->
                    Promise GenerateContentResponse;
  evaluateAnswer : list Event -> string -> option string -> Promise bool;
  dedupQueries : list Event -> list string -> list string ->
                 Promise (list string);
  rewriteQuery : list Event -> string -> Promise (list string);
  search : list Event -> string -> Promise (list SearchHit);
  readUrl : list Event -> string -> Promise ReadResponse
}.

(** ** The variables of [getResponse] *)

(** The [let] variables of lines 228-234, and the log of the calls made
    so far. *)
Record Heap := mkHeap {
  totalTokens : Z;
  context : list ContextEntry;
  step : nat;
  gaps : list string;
  allQuestions : list string;
  allKeywords : list string;
  badContext : list ContextEntry;
  trace : list Event
}.

Definition set_totalTokens (v : Z) (h : Heap) : Heap :=
  mkHeap v (context h) (step h) (gaps h) (allQuestions h) (allKeywords h)
         (badContext h) (trace h).
Definition set_context (v : list ContextEntry) (h : Heap) : Heap :=
  mkHeap (totalTokens h) v (step h) (gaps h) (allQuestions h) (allKeywords h)
         (badContext h) (trace h).
Definition set_step (v : nat) (h : Heap) : Heap :=
  mkHeap (totalTokens h) (context h) v (gaps h) (allQuestions h)
         (allKeywords h) (badContext h) (trace h).
Definition set_gaps (v : list string) (h : Heap) : Heap :=
  mkHeap (totalTokens h) (context h) (step h) v (allQuestions h)
         (allKeywords h) (badContext h) (trace h).
Definition set_allQuestions (v : list string) (h : Heap) : Heap :=
  mkHeap (totalTokens h) (context h) (step h) (gaps h) v (allKeywords h)
         (badContext h) (trace h).
Definition set_allKeywords (v : list string) (h : Heap) : Heap :=
  mkHeap (totalTokens h) (context h) (step h) (gaps h) (allQuestions h) v
         (badContext h) (trace h).
Definition set_badContext (v : list ContextEntry) (h : Heap) : Heap :=
  mkHeap (totalTokens h) (context h) (step h) (gaps h) (allQuestions h)
         (allKeywords h) v (trace h).
Definition log (e : Event) (h : Heap) : Heap :=
  mkHeap (totalTokens h) (context h) (step h) (gaps h) (allQuestions h)
         (allKeywords h) (badContext h) (trace h ++ [e]).

(** ** Completions and the monad of the loop *)

(** How a block ends: it runs to its end, it executes [return action], an
    error is thrown and not yet caught, or the bound on the turns of the
    loop was reached. *)
Inductive Completion (A : Type) : Type :=
| Normal (a : A)
| Returned (v : Action)
| Thrown (e : string)
| OutOfFuel.
Arguments Returned {A} v.
Arguments Thrown {A} e.
Arguments OutOfFuel {A}.

Definition M (A : Type) : Type := Heap -> Completion A * Heap.

Definition ret {A : Type} (a : A) : M A := fun h => (Normal a, h).

Definition bind {A B : Type} (m : M A) (k : A -> M B) : M B :=
  fun h =>
    match m h with
    | (Normal a, h') => k a h'
    | (Returned v, h') => (Returned v, h')
    | (Thrown e, h') => (Thrown e, h')
    | (OutOfFuel, h') => (OutOfFuel, h')
    end.

Notation "x <- m ;; k" := (bind m (fun x => k))
  (at level 61, m at next level, right associativity).
Notation "m ;; k" := (bind m (fun _ => k))
  (at level 61, right associativity).

Definition get : M Heap := fun h => (Normal h, h).
Definition modify (f : Heap -> Heap) : M unit := fun h => (Normal tt, f h).
Definition return_ {A : Type} (v : Action) : M A := fun h => (Returned v, h).
Definition throw {A : Type} (e : string) : M A := fun h => (Thrown e, h).
Definition when (b : bool) (m : M unit) : M unit := if b then m else ret tt.

(** [try { m } catch (error) { handler }]: only a thrown error is caught. *)
Definition try_catch (m : M unit) (handler : string -> M unit) : M unit :=
  fun h =>
    match m h with
    | (Thrown e, h') => handler e h'
    | r => r
    end.

(** [await p]: the call is logged, then its outcome is observed. *)
Definition await {A : Type} (e : Event) (p : list Event -> Promise A) : M A :=
  fun h =>
    match p (trace h) with
    | Resolves a => (Normal a, log e h)
    | Rejects err => (Thrown err, log e h)
    end.

(** ** The loop of [getResponse] *)

Section Loop.

Variable W : World.

(** [sleep(ms)] only waits and animates a spinner. *)
Definition sleep (ms : nat) : M unit :=
  modify (log (EvSleep ms)).

(** [storeContext] writes the three snapshots and swallows its own
    errors. *)
Definition storeContext : M unit :=
  modify (fun h =>
    log (EvStoreContext (context h) (allKeywords h) (allQuestions h)) h).

(** [gaps.length > 0 ? gaps.shift()! : question] *)
Definition shift_gaps (question : string) : M string :=
  fun h =>
    match gaps h with
    | [] => (Normal question, h)
    | head :: rest => (Normal head, set_gaps rest h)
    end.

(** [usage?.totalTokenCount || 0] *)
Definition token_count (response : GenerateContentResponse) : Z :=
  match totalTokenCount response with
  | Some n => n
  | None => 0%Z
  end.

(** [JSON.parse(response.text())] *)
Definition parse_action (response : GenerateContentResponse) : M Action :=
  match parsed response with
  | Some a => ret a
  | None => throw "SyntaxError"
  end.

(** Lines 266-281: the entry for an answer, and the evaluation gate for
    an answer to the original question. *)
Definition answer_branch (question currentQuestion : string) (a : Action)
  : M unit :=
  when (String.eqb (action a) "answer")
    (h <- get ;;
     modify (set_context
               (context h ++ [mkContextEntry (step h) currentQuestion a NoResult])) ;;
     when (String.eqb currentQuestion question)
       (evaluation <- await (EvEvaluateAnswer currentQuestion (answer a))
                            (fun t => evaluateAnswer W t currentQuestion (answer a)) ;;
        if (evaluation : bool)
        then return_ a
        else
          h <- get ;;
          modify (set_badContext (badContext h ++ context h)) ;;
          modify (set_context []))).

(** Lines 283-291: new sub-questions after a reflect. *)
Definition reflect_branch (question : string) (a : Action) : M unit :=
  match questionsToAnswer a with
  | Some questions =>
      when (String.eqb (action a) "reflect")
        (h <- get ;;
         newGapQuestions <-
           match allQuestions h with
           | [] => ret questions
           | _ :: _ =>
               await (EvDedupQueries questions (allQuestions h))
                     (fun t => dedupQueries W t questions (allQuestions h))
           end ;;
         h <- get ;;
         modify (set_gaps (gaps h ++ newGapQuestions)) ;;
         h <- get ;;
         modify (set_allQuestions (allQuestions h ++ newGapQuestions)) ;;
         h <- get ;;
         modify (set_gaps (gaps h ++ [question])))
  | None => ret tt
  end.

(** Lines 303-315: one search per rewritten query. *)
Fixpoint search_each (queries : list string) (searchResults : list SearchResult)
  : M (list SearchResult) :=
  match queries with
  | [] => ret searchResults
  | query :: more =>
      results <- await (EvSearch query) (fun t => search W t query) ;;
      h <- get ;;
      modify (set_allKeywords (allKeywords h ++ [query])) ;;
      sleep 5000 ;;
      search_each more (searchResults ++ [mkSearchResult query results])
  end.

(** [action.URLTargets.map(async url => ...)]: every fetch is started, in
    the order of the list, before any of them is awaited. *)
Fixpoint start_reads (urls : list string) : M (list (Promise UrlResult)) :=
  match urls with
  | [] => ret []
  | target :: more =>
      h <- get ;;
      modify (log (EvReadUrl target)) ;;
      rest <- start_reads more ;;
      ret (match readUrl W (trace h) target with
           | Resolves response => Resolves (mkUrlResult target response)
           | Rejects e => Rejects e
           end :: rest)
  end.

(** [Promise.all]: resolves with all the values, or rejects as soon as
    one of the promises rejects. *)
Fixpoint promise_all {A : Type} (ps : list (Promise A)) : Promise (list A) :=
  match ps with
  | [] => Resolves []
  | Rejects e :: _ => Rejects e
  | Resolves a :: more =>
      match promise_all more with
      | Resolves values => Resolves (a :: values)
      | Rejects e => Rejects e
      end
  end.

(** [urlResults.reduce((sum, r) => sum + r.result.data.usage.tokens, 0)] *)
Definition sum_tokens (urlResults : list UrlResult) : Z :=
  fold_left (fun sum r => (sum + rr_tokens (ur_result r))%Z) urlResults 0%Z.

(** Lines 295-337: the body of the [try]. *)
Definition fetch_branch (currentQuestion : string) (a : Action) : M unit :=
  if String.eqb (action a) "search" && truthy_string (searchQuery a) then
    rewritten <- await (EvRewriteQuery (match searchQuery a with
                                        | Some q => q
                                        | None => ""
                                        end))
                       (fun t => rewriteQuery W t (match searchQuery a with
                                                   | Some q => q
                                                   | None => ""
                                                   end)) ;;
    h <- get ;;
    keywordsQueries <-
      match allKeywords h with
      | [] => ret rewritten
      | _ :: _ =>
          await (EvDedupQueries rewritten (allKeywords h))
                (fun t => dedupQueries W t rewritten (allKeywords h))
      end ;;
    searchResults <- search_each keywordsQueries [] ;;
    h <- get ;;
    modify (set_context
              (context h ++ [mkContextEntry (step h) currentQuestion a
                                            (SearchResults searchResults)]))
  else if String.eqb (action a) "deep dive" && has_length (URLTargets a) then
    pending <- start_reads (match URLTargets a with
                            | Some urls => urls
                            | None => []
                            end) ;;
    match promise_all pending with
    | Rejects e => throw e
    | Resolves urlResults =>
        h <- get ;;
        modify (set_context
                  (context h ++ [mkContextEntry (step h) currentQuestion a
                                                (UrlResults urlResults)])) ;;
        h <- get ;;
        modify (set_totalTokens (totalTokens h + sum_tokens urlResults)%Z)
    end
  else ret tt.

(** Lines 237-341: one turn of the [while] loop. *)
Definition loop_body (question : string) : M unit :=
  sleep 1000 ;;
  h <- get ;;
  modify (set_step (S (step h))) ;;
  h <- get ;;
  let allowReflect := Nat.leb (length (gaps h)) 1 in
  currentQuestion <- shift_gaps question ;;
  h <- get ;;
  let prompt := getPrompt (JSON_stringify W) currentQuestion
                          (Some (context h)) (Some (allQuestions h))
                          allowReflect None in
  response <- await (EvGenerateContent prompt (getSchema allowReflect))
                    (fun t => generateContent W t prompt (getSchema allowReflect)) ;;
  h <- get ;;
  modify (set_totalTokens (totalTokens h + token_count response)%Z) ;;
  a <- parse_action response ;;
  answer_branch question currentQuestion a ;;
  reflect_branch question a ;;
  try_catch (fetch_branch currentQuestion a) (fun _ => ret tt) ;;
  storeContext.

(** [while (totalTokens < tokenBudget) { ... }]; falling out of the loop
    ends [getResponse] without a value.  [fuel] bounds the number of
    turns the model is run for. *)
Fixpoint while_loop (fuel : nat) (question : string) (tokenBudget : Z)
  : M unit :=
  fun h =>
    if (totalTokens h <? tokenBudget)%Z then
      match fuel with
      | O => (OutOfFuel, h)
      | S fuel' =>
          (loop_body question ;; while_loop fuel' question tokenBudget) h
      end
    else (Normal tt, h).

Definition initial (question : string) : Heap :=
  {| totalTokens := 0;
     context := [];
     step := 0;
     gaps := [question];
     allQuestions := [question];
     allKeywords := [];
     badContext := [];
     trace := [] |}.

Definition default_tokenBudget : Z := 30000000.

Definition getResponse (fuel : nat) (question : string) (tokenBudget : Z)
  : Completion unit * Heap :=
  while_loop fuel question tokenBudget (initial question).

End Loop.

(** * Vocabulary for the properties *)

#[local] Arguments getPrompt : simpl never.
#[local] Arguments getSchema : simpl never.

Section Turn.

Variable W : World.
Variable question : string.

(** The question a turn that starts in [h] works on. *)
Definition current_question (h : Heap) : string :=
  match gaps h with
  | [] => question
  | head :: _ => head
  end.

Definition allow_reflect (h : Heap) : bool := Nat.leb (length (gaps h)) 1.

(** The call to the model made by a turn that starts in [h], and the
    model's reply. *)
Definition oracle_call (h : Heap) : Event :=
  EvGenerateContent
    (getPrompt (JSON_stringify W) (current_question h) (Some (context h))
               (Some (allQuestions h)) (allow_reflect h) None)
    (getSchema (allow_reflect h)).

Definition oracle_reply (h : Heap) : Promise GenerateContentResponse :=
  generateContent W (trace h ++ [EvSleep 1000])
    (getPrompt (JSON_stringify W) (current_question h) (Some (context h))
               (Some (allQuestions h)) (allow_reflect h) None)
    (getSchema (allow_reflect h)).

(** The model answered the turn's call with the action [a]. *)
Definition oracle_says (h : Heap) (response : GenerateContentResponse)
           (a : Action) : Prop :=
  oracle_reply h = Resolves response /\ parsed response = Some a.

(** The heap when the model is called, and when its reply is parsed. *)
Definition selected (h : Heap) : Heap :=
  mkHeap (totalTokens h) (context h) (S (step h)) (tl (gaps h))
         (allQuestions h) (allKeywords h) (badContext h)
         (trace h ++ [EvSleep 1000]).

Definition decided (response : GenerateContentResponse) (h : Heap) : Heap :=
  mkHeap (totalTokens h + token_count response)%Z (context h) (S (step h))
         (tl (gaps h)) (allQuestions h) (allKeywords h) (badContext h)
         (trace h ++ [EvSleep 1000; oracle_call h]).

(** The log that the collaborators called after the model can see. *)
Definition decision_log (h : Heap) : list Event :=
  trace h ++ [EvSleep 1000; oracle_call h].

(** Lines 266-341, once the action is known. *)
Definition dispatch (currentQuestion : string) (a : Action) : M unit :=
  answer_branch W question currentQuestion a ;;
  reflect_branch W question a ;;
  try_catch (fetch_branch W currentQuestion a) (fun _ => ret tt) ;;
  storeContext.

(** The entry pushed for an answer given in the turn that starts in [h]. *)
Definition answer_entry (h : Heap) (a : Action) : ContextEntry :=
  mkContextEntry (S (step h)) (current_question h) a NoResult.

(** The evaluator's verdict on that answer. *)
Definition evaluator_reply (h : Heap) (a : Action) : Promise bool :=
  evaluateAnswer W (decision_log h) (current_question h) (answer a).

(** The sub-questions that survive lines 284-287. *)
Definition surviving (h : Heap) (questions : list string)
  : Promise (list string) :=
  match allQuestions h with
  | [] => Resolves questions
  | _ :: _ => dedupQueries W (decision_log h) questions (allQuestions h)
  end.

(** The outcomes of the fetches of a deep dive, in the order of the
    URLs. *)
Fixpoint read_outcomes (history : list Event) (urls : list string)
  : list (Promise ReadResponse) :=
  match urls with
  | [] => []
  | target :: more =>
      readUrl W history target
        :: read_outcomes (history ++ [EvReadUrl target]) more
  end.

(** The heaps in which a turn of the loop can start. *)
Inductive reachable (tokenBudget : Z) : Heap -> Prop :=
| reach_initial : reachable tokenBudget (initial question)
| reach_turn h h' :
    reachable tokenBudget h ->
    (totalTokens h <? tokenBudget)%Z = true ->
    loop_body W question h = (Normal tt, h') ->
    reachable tokenBudget h'.

End Turn.

(** The variables that only the answer and reflect branches write. *)
Definition keeps (h h' : Heap) : Prop :=
  context h' = context h /\ gaps h' = gaps h /\
  allQuestions h' = allQuestions h /\ badContext h' = badContext h /\
  step h' = step h /\ totalTokens h' = totalTokens h.

Definition extends (h h' : Heap) : Prop :=
  exists more, trace h' = trace h ++ more.

(** The tags whose branch pushes a context entry. *)
Definition produces_entry (tag : string) : Prop :=
  tag = "answer" \/ tag = "search" \/ tag = "deep dive".

(** The gap queue as the loop leaves it: empty, or ending with the
    original question. *)
Definition ends_with (question : string) (queue : list string) : Prop :=
  queue = [] \/ exists front, queue = front ++ [question].

(** The completions of a block without [return]. *)
Definition settles {A : Type} (c : Completion A) : Prop :=
  match c with
  | Normal _ | Thrown _ => True
  | Returned _ | OutOfFuel => False
  end.

(** Every entry of [new] is in [old] or was pushed for the action [a]. *)
Definition entries_from (a : Action) (old new : list ContextEntry) : Prop :=
  Forall (fun e => In e old \/ (ce_action e = a /\ produces_entry (action a)))
         new.

(** How the promise built by the deep dive relates to the outcome of
    [readUrl]. *)
Definition fetched (outcome : Promise ReadResponse) (p : Promise UrlResult)
  : Prop :=
  match outcome with
  | Resolves response => exists target, p = Resolves (mkUrlResult target response)
  | Rejects e => p = Rejects e
  end.

(** The entry was pushed by one of the three branches that push. *)
Definition producing (e : ContextEntry) : Prop :=
  produces_entry (action (ce_action e)).

(** ** Vocabulary for the calls of a turn *)

Section Calls.

Variable W : World.
Variable question : string.

(** What a call made after the model's reply owes to the action [a]: the
    evaluator is asked about the original question and the action's
    answer, the rewriter is given the action's query, only the action's
    URLs are read, and the model is not called again. *)
Definition caused_by (a : Action) (e : Event) : Prop :=
  match e with
  | EvSleep ms => ms = 5000 /\ action a = "search"
  | EvGenerateContent _ _ => False
  | EvEvaluateAnswer asked candidate =>
      action a = "answer" /\ asked = question /\ candidate = answer a
  | EvDedupQueries _ _ => action a = "reflect" \/ action a = "search"
  | EvRewriteQuery query => action a = "search" /\ searchQuery a = Some query
  | EvSearch _ => action a = "search"
  | EvReadUrl target =>
      action a = "deep dive" /\
      exists urls, URLTargets a = Some urls /\ In target urls
  | EvStoreContext _ _ _ => True
  end.

(** The action selects none of the four branches of the turn. *)
Definition selects_no_branch (a : Action) : Prop :=
  action a <> "answer" /\
  (action a <> "reflect" \/ questionsToAnswer a = None) /\
  (action a <> "search" \/ truthy_string (searchQuery a) = false) /\
  (action a <> "deep dive" \/ has_length (URLTargets a) = false).

(** The rewriter's reply to the query of a search action, the keyword
    queries that survive lines 299-301, and the log when the first of
    them is sent to the search provider. *)
Definition rewriter_reply (h : Heap) (query : string) : Promise (list string) :=
  rewriteQuery W (decision_log W question h) query.

Definition surviving_keywords (h : Heap) (query : string)
           (rewritten : list string) : Promise (list string) :=
  match allKeywords h with
  | [] => Resolves rewritten
  | _ :: _ =>
      dedupQueries W (decision_log W question h ++ [EvRewriteQuery query])
                   rewritten (allKeywords h)
  end.

Definition search_log (h : Heap) (query : string) (rewritten : list string)
  : list Event :=
  decision_log W question h
    ++ EvRewriteQuery query
    :: match allKeywords h with
       | [] => []
       | _ :: _ => [EvDedupQueries rewritten (allKeywords h)]
       end.

(** The outcomes of the searches of a turn, in the order of the queries;
    each search is followed by the cool-down of line 314. *)
Fixpoint search_outcomes (history : list Event) (queries : list string)
  : list (Promise (list SearchHit)) :=
  match queries with
  | [] => []
  | query :: more =>
      search W history query
        :: search_outcomes (history ++ [EvSearch query; EvSleep 5000]) more
  end.

End Calls.

Definition search_calls (queries : list string) : list Event :=
  flat_map (fun query => [EvSearch query; EvSleep 5000]) queries.

(** [searchResults] and [urlResults] when every call resolves. *)
Definition search_results (queries : list string) (hits : list (list SearchHit))
  : list SearchResult :=
  map (fun p => mkSearchResult (fst p) (snd p)) (combine queries hits).

Definition url_results (urls : list string) (responses : list ReadResponse)
  : list UrlResult :=
  map (fun p => mkUrlResult (fst p) (snd p)) (combine urls responses).

(** No collaborator reports a negative token count. *)
Definition bills_no_negative (W : World) : Prop :=
  (forall history prompt schema response,
      generateContent W history prompt schema = Resolves response ->
      (0 <= token_count response)%Z) /\
  (forall history target response,
      readUrl W history target = Resolves response ->
      (0 <= rr_tokens response)%Z).

(** The model keeps to the schema it is given as far as reflect goes: it
    reflects only when the tag is offered, with at most [maxItems]
    questions. *)
Definition honours_schema (W : World) : Prop :=
  forall history prompt schema response a,
    generateContent W history prompt schema = Resolves response ->
    parsed response = Some a ->
    action a = "reflect" ->
    In "reflect" (allowed_actions schema) /\
    forall questions, questionsToAnswer a = Some questions ->
                      length questions <= 2.

(** The deduplicator returns no more queries than it was given. *)
Definition dedup_shrinks (W : World) : Prop :=
  forall history newQueries existing kept,
    dedupQueries W history newQueries existing = Resolves kept ->
    length kept <= length newQueries.

(** The number of calls to the model in a log. *)
Definition model_calls (history : list Event) : nat :=
  length (filter (fun e => match e with
                           | EvGenerateContent _ _ => true
                           | _ => false
                           end) history).
(** What the branches after the model's reply add to the keyword
    registry and to the log: every call is owed to the action, and every
    new keyword was sent to the search provider. *)
Definition logs_for (question : string) (a : Action) (h h' : Heap) : Prop :=
  exists ks more,
    allKeywords h' = allKeywords h ++ ks /\
    trace h' = trace h ++ more /\
    Forall (caused_by question a) more /\
    (forall k, In k ks -> In (EvSearch k) more).

(** What they add to the token count: nothing, or the tokens of pages
    that the reader returned. *)
Definition bills_for (W : World) (h h' : Heap) : Prop :=
  totalTokens h' = totalTokens h \/
  exists urlResults,
    totalTokens h' = (totalTokens h + sum_tokens urlResults)%Z /\
    Forall (fun u => exists history target,
                readUrl W history target = Resolves (ur_result u))
           urlResults.
(** [piece] is found verbatim in [whole]. *)
Definition occurs (piece whole : string) : Prop :=
  exists before after, whole = (before ++ piece ++ after)%string.

(** ** Worlds for the concrete runs *)

Module Scenario.

(** A stand-in for [JSON.stringify] in the concrete runs: the tags of the
    entries. *)
Definition show_entries (entries : list ContextEntry) : string :=
  String.concat "," (map (fun e => action (ce_action e)) entries).

Definition calls_so_far (history : list Event) : nat :=
  length (filter (fun e => match e with
                           | EvGenerateContent _ _ => true
                           | _ => false
                           end) history).

(** A model that plays [script], one action per call, each call billed
    10 tokens; an exact-match deduplicator; a rewriter that keeps the
    query; a search provider without results. *)
Definition scripted (script : list Action) (verdict : Promise bool)
           (reader : string -> Promise ReadResponse) : World :=
  {| JSON_stringify := show_entries;
     generateContent := fun history _ _ =>
       match nth_error script (calls_so_far history) with
       | Some a => Resolves (mkResponse (Some 10%Z) (Some a))
       | None => Rejects "no further reply"
       end;
     evaluateAnswer := fun _ _ _ => verdict;
     dedupQueries := fun _ newQueries existing =>
       Resolves (filter (fun q => negb (existsb (String.eqb q) existing))
                        newQueries);
     rewriteQuery := fun _ query => Resolves [query];
     search := fun _ _ => Resolves [];
     readUrl := fun _ target => reader target |}.

Definition no_reader (target : string) : Promise ReadResponse :=
  Rejects "not reachable".

(** [Answer{text: 2, references: []}] *)
Definition bare_answer : Action :=
  mkAction "answer" None None (Some "2") (Some []) (Some "arithmetic") None.

Definition reflect_on (questions : list string) : Action :=
  mkAction "reflect" None None None None (Some "open points")
           (Some questions).

Definition deep_dive (urls : list string) : Action :=
  mkAction "deep dive" None (Some urls) None None (Some "read sources") None.

(** The evaluator finds the answer definitive. *)
Definition accepting : World := scripted [bare_answer] (Resolves true) no_reader.

(** The evaluator finds every answer wanting. *)
Definition rejecting : World :=
  scripted [bare_answer; bare_answer] (Resolves false) no_reader.

(** The evaluator call fails. *)
Definition failing_evaluator : World :=
  scripted [bare_answer] (Rejects "EvaluationFailed") no_reader.

Definition reflecting : World :=
  scripted [reflect_on ["Q1"; "Q2"]] (Resolves true) no_reader.

(** The first page can be read, the second cannot. *)
Definition half_reader (target : string) : Promise ReadResponse :=
  if String.eqb target "http://a.example"
  then Resolves (mkReadResponse "page a" 7)
  else Rejects "fetch failed".

Definition diving : World :=
  scripted [deep_dive ["http://a.example"; "http://b.example"]]
           (Resolves true) half_reader.

(** The heap after the first turn of the rejecting run, and the prompt
    that [getPrompt] builds for the original question when it is given
    neither context nor bad context. *)
Definition after_rejection : Heap :=
  snd (loop_body rejecting "1+1=" (initial "1+1=")).

Definition plain_prompt : string :=
  getPrompt show_entries "1+1=" (Some []) (Some ["1+1="]) true None.

(** The question of the arithmetic runs, and the model's reply in them. *)
Definition sum_question : string := "1+1=".

Definition sum_reply : GenerateContentResponse :=
  mkResponse (Some 10%Z) (Some bare_answer).

(** The question and the two pages of the deep-dive run. *)
Definition page_question : string := "which page".

Definition pages : list string := ["http://a.example"; "http://b.example"].

(** The prompts of the calls to the model found in a log. *)
Definition prompts_sent (history : list Event) : list string :=
  flat_map (fun e => match e with
                     | EvGenerateContent prompt _ => [prompt]
                     | _ => []
                     end) history.

(** The model reflects in the first turn and answers in the second. *)
Definition exploring : World :=
  scripted [reflect_on ["Q1"; "Q2"]; bare_answer] (Resolves true) no_reader.

Definition after_reflection : Heap :=
  snd (loop_body exploring "why" (initial "why")).

(** A search action that names no query. *)
Definition bare_search : Action :=
  mkAction "search" None None None None (Some "look it up") None.

Definition idling : World := scripted [bare_search] (Resolves true) no_reader.

(** The model does not reply at all, or replies with text that is not
    JSON. *)
Definition silent : World := scripted [] (Resolves true) no_reader.

Definition garbling : World :=
  {| JSON_stringify := show_entries;
     generateContent := fun _ _ _ => Resolves (mkResponse (Some 10%Z) None);
     evaluateAnswer := fun _ _ _ => Resolves true;
     dedupQueries := fun _ newQueries _ => Resolves newQueries;
     rewriteQuery := fun _ query => Resolves [query];
     search := fun _ _ => Resolves [];
     readUrl := fun _ _ => Rejects "not reachable" |}.
(** A search action with a query. *)
Definition search_for (query : string) : Action :=
  mkAction "search" (Some query) None None None (Some "look it up") None.

Definition jina_hit : SearchHit :=
  mkSearchHit "Jina AI" "https://jina.ai" "Search foundation".

(** The model searches for jina ai in every turn and the rewriter adds a
    second query; the search provider fails on the query [failing]; the
    deduplicator matches exactly, or fails. *)
Definition searching (failing : string) (dedup_works : bool) : World :=
  {| JSON_stringify := show_entries;
     generateContent := fun _ _ _ =>
       Resolves (mkResponse (Some 10%Z) (Some (search_for "jina ai")));
     evaluateAnswer := fun _ _ _ => Resolves true;
     dedupQueries := fun _ newQueries existing =>
       if dedup_works
       then Resolves (filter (fun q => negb (existsb (String.eqb q) existing))
                             newQueries)
       else Rejects "dedup failed";
     rewriteQuery := fun _ query => Resolves [query; "jina ai founder"];
     search := fun _ query =>
       if String.eqb query failing
       then Rejects "search failed"
       else Resolves [jina_hit];
     readUrl := fun _ _ => Rejects "not reachable" |}.

Definition search_reply : GenerateContentResponse :=
  mkResponse (Some 10%Z) (Some (search_for "jina ai")).

(** A heap in which jina ai has been searched for before. *)
Definition with_keyword : Heap :=
  set_allKeywords ["jina ai"] (initial "who founded jina ai").

(** The heap after the first turn of a run in which every search works. *)
Definition after_search : Heap :=
  snd (loop_body (searching "" true) "who founded jina ai"
                 (initial "who founded jina ai")).

(** The model reflects and the deduplicator fails. *)
Definition reflecting_blind : World :=
  {| JSON_stringify := show_entries;
     generateContent := fun _ _ _ =>
       Resolves (mkResponse (Some 10%Z) (Some (reflect_on ["Q1"; "Q2"])));
     evaluateAnswer := fun _ _ _ => Resolves true;
     dedupQueries := fun _ _ _ => Rejects "dedup failed";
     rewriteQuery := fun _ query => Resolves [query];
     search := fun _ _ => Resolves [];
     readUrl := fun _ _ => Rejects "not reachable" |}.

(** Every page can be read, at 7 tokens each. *)
Definition full_reader (target : string) : Promise ReadResponse :=
  Resolves (mkReadResponse target 7).

Definition reading : World :=
  scripted [deep_dive pages] (Resolves true) full_reader.

(** The model reflects whenever the schema offers it and answers
    otherwise; the evaluator is never satisfied. *)
Definition obedient : World :=
  {| JSON_stringify := show_entries;
     generateContent := fun _ _ schema =>
       Resolves (mkResponse (Some 10%Z)
         (Some (if existsb (String.eqb "reflect") (allowed_actions schema)
                then reflect_on ["Q1"; "Q2"]
                else bare_answer)));
     evaluateAnswer := fun _ _ _ => Resolves false;
     dedupQueries := fun _ newQueries existing =>
       Resolves (filter (fun q => negb (existsb (String.eqb q) existing))
                        newQueries);
     rewriteQuery := fun _ query => Resolves [query];
     search := fun _ _ => Resolves [];
     readUrl := fun _ _ => Rejects "not reachable" |}.
Definition after_obedient_turn : Heap :=
  snd (loop_body obedient "why" (initial "why")).

End Scenario.

(** * Properties of the loop *)

(** Unfolds the monad and the heap accessors, nothing else. *)
Ltac run :=
  cbv beta iota zeta delta
    [bind await sleep modify get ret throw return_ when try_catch
     storeContext set_step set_gaps set_totalTokens set_context
     set_badContext set_allQuestions set_allKeywords log];
  cbn [totalTokens context step gaps allQuestions allKeywords badContext trace].

Ltac run_in H :=
  cbv beta iota zeta delta
    [bind await sleep modify get ret throw return_ when try_catch
     storeContext set_step set_gaps set_totalTokens set_context
     set_badContext set_allQuestions set_allKeywords log] in H;
  cbn [totalTokens context step gaps allQuestions allKeywords badContext trace]
    in H.

Ltac done_pair H := injection H as <- <-.

Section TurnFacts.

Variable W : World.
Variable question : string.

Lemma loop_body_eq (h : Heap) :
  loop_body W question h =
  match oracle_reply W question h with
  | Rejects e => (Thrown e, log (oracle_call W question h) (selected h))
  | Resolves response =>
      match parsed response with
      | None => (Thrown "SyntaxError", decided W question response h)
      | Some a =>
          dispatch W question (current_question question h) a
                   (decided W question response h)
      end
  end.
Proof.
  destruct h as [tokens ctx st g asked kws bad tr].
  unfold oracle_reply, oracle_call, current_question, allow_reflect,
    dispatch, selected, decided.
  destruct g as [|g0 g];
    cbv beta iota zeta delta
      [loop_body bind await sleep modify get shift_gaps parse_action ret throw
       set_step set_gaps set_totalTokens log tl
       totalTokens context step gaps allQuestions allKeywords badContext trace];
    rewrite <- app_assoc; cbn [app];
    (destruct (generateContent W _ _ _) as [r|e]; [destruct (parsed r)|]);
    reflexivity.
Qed.

Lemma loop_body_says (h : Heap) response a :
  oracle_says W question h response a ->
  loop_body W question h =
  dispatch W question (current_question question h) a
           (decided W question response h).
Proof.
  intros [Hreply Hparsed]. rewrite loop_body_eq, Hreply, Hparsed. reflexivity.
Qed.

(** ** The branches that a tag does not select *)

Lemma answer_branch_skip cq a h :
  action a <> "answer" -> answer_branch W question cq a h = (Normal tt, h).
Proof.
  intros Htag. unfold answer_branch.
  apply String.eqb_neq in Htag. rewrite Htag. reflexivity.
Qed.

Lemma reflect_branch_skip a h :
  action a <> "reflect" -> reflect_branch W question a h = (Normal tt, h).
Proof.
  intros Htag. unfold reflect_branch.
  apply String.eqb_neq in Htag. rewrite Htag.
  destruct (questionsToAnswer a); reflexivity.
Qed.

Lemma fetch_branch_skip cq a h :
  action a <> "search" -> action a <> "deep dive" ->
  fetch_branch W cq a h = (Normal tt, h).
Proof.
  intros Hs Hd. unfold fetch_branch.
  apply String.eqb_neq in Hs, Hd. rewrite Hs, Hd. reflexivity.
Qed.

(** ** What each branch may write *)

Lemma keeps_refl h : keeps h h.
Proof. repeat split. Qed.

Lemma keeps_trans h1 h2 h3 : keeps h1 h2 -> keeps h2 h3 -> keeps h1 h3.
Proof.
  unfold keeps.
  intros (A1 & A2 & A3 & A4 & A5 & A6) (B1 & B2 & B3 & B4 & B5 & B6).
  repeat split; congruence.
Qed.

Lemma extends_refl h : extends h h.
Proof. exists []. now rewrite app_nil_r. Qed.

Lemma extends_trans h1 h2 h3 : extends h1 h2 -> extends h2 h3 -> extends h1 h3.
Proof.
  intros [m1 E1] [m2 E2]. exists (m1 ++ m2). now rewrite E2, E1, app_assoc.
Qed.

Lemma await_frame {A : Type} e (p : list Event -> Promise A) h c h' :
  await e p h = (c, h') -> keeps h h' /\ extends h h'.
Proof.
  unfold await. destruct (p (trace h)); intros E; done_pair E;
    (split; [repeat split | now exists [e]]).
Qed.

Lemma search_each_frame queries : forall acc h c h',
  search_each W queries acc h = (c, h') -> keeps h h' /\ extends h h'.
Proof.
  induction queries as [|query more IH]; intros acc h c h' E.
  - cbn in E. done_pair E. split; [apply keeps_refl | apply extends_refl].
  - cbn [search_each] in E. run_in E.
    destruct (search W (trace h) query) as [results|e]; cbn iota in E.
    + apply IH in E. destruct E as [K X]. split.
      * eapply keeps_trans; [|exact K]. repeat split.
      * eapply extends_trans; [|exact X]. exists [EvSearch query; EvSleep 5000].
        cbn. now rewrite <- app_assoc.
    + done_pair E. split; [repeat split | now exists [EvSearch query]].
Qed.

Lemma search_each_settles queries : forall acc h,
  settles (fst (search_each W queries acc h)).
Proof.
  induction queries as [|query more IH]; intros acc h.
  - exact I.
  - cbn [search_each]. run.
    destruct (search W (trace h) query) as [results|e]; cbn iota.
    + apply IH.
    + exact I.
Qed.

Lemma start_reads_spec urls : forall h,
  exists pending,
    start_reads W urls h =
      (Normal pending,
       mkHeap (totalTokens h) (context h) (step h) (gaps h) (allQuestions h)
              (allKeywords h) (badContext h) (trace h ++ map EvReadUrl urls))
    /\ Forall2 fetched (read_outcomes W (trace h) urls) pending.
Proof.
  induction urls as [|target more IH]; intros h.
  - exists []. split; [|constructor].
    destruct h; cbn. now rewrite app_nil_r.
  - destruct (IH (log (EvReadUrl target) h)) as (pending & E & F).
    unfold log in E, F. cbn [trace totalTokens context step gaps allQuestions
                              allKeywords badContext] in E, F.
    eexists. split.
    + cbn [start_reads]. run. rewrite E. cbn iota.
      rewrite <- app_assoc. reflexivity.
    + cbn [read_outcomes]. constructor; [|exact F].
      destruct (readUrl W (trace h) target); cbn; eauto.
Qed.

Lemma promise_all_rejects outcomes :
  forall (pending : list (Promise UrlResult)) e,
  Forall2 fetched outcomes pending -> In (Rejects e) outcomes ->
  exists e', promise_all pending = Rejects e'.
Proof.
  induction outcomes as [|o more IH]; intros pending e F Hin.
  - destruct Hin.
  - inversion F as [|? p ? rest Hp Hrest]; subst. destruct Hin as [->|Hin].
    + cbn in Hp. subst p. now exists e.
    + destruct (IH _ _ Hrest Hin) as [e' E']. cbn [promise_all].
      destruct p; [rewrite E'|]; eauto.
Qed.

(** ** The answer branch, case by case *)

Lemma answer_branch_sub_question cq a h :
  action a = "answer" -> cq <> question ->
  answer_branch W question cq a h =
    (Normal tt,
     set_context (context h ++ [mkContextEntry (step h) cq a NoResult]) h).
Proof.
  intros Htag Hq. unfold answer_branch.
  apply String.eqb_eq in Htag. apply String.eqb_neq in Hq.
  rewrite Htag. run. rewrite Hq. reflexivity.
Qed.

Lemma answer_branch_original cq a h :
  action a = "answer" -> cq = question ->
  answer_branch W question cq a h =
    let h1 := log (EvEvaluateAnswer cq (answer a))
                  (set_context
                     (context h ++ [mkContextEntry (step h) cq a NoResult]) h) in
    match evaluateAnswer W (trace h) cq (answer a) with
    | Resolves true => (Returned a, h1)
    | Resolves false =>
        (Normal tt, set_context [] (set_badContext (badContext h1 ++ context h1) h1))
    | Rejects e => (Thrown e, h1)
    end.
Proof.
  intros Htag Hq. unfold answer_branch.
  apply String.eqb_eq in Htag. apply String.eqb_eq in Hq.
  rewrite Htag. run. rewrite Hq. run.
  destruct (evaluateAnswer W (trace h) cq (answer a)) as [[|]|e]; reflexivity.
Qed.

Lemma entries_from_refl a old : entries_from a old old.
Proof. apply Forall_forall. intros e He. now left. Qed.

Lemma entries_from_push a old e :
  ce_action e = a -> produces_entry (action a) ->
  entries_from a old (old ++ [e]).
Proof.
  intros Ha Hp. apply Forall_app. split.
  - apply entries_from_refl.
  - constructor; [right; now split | constructor].
Qed.

Lemma entries_from_weaken a old old' new :
  incl old old' -> entries_from a old new -> entries_from a old' new.
Proof.
  intros Hincl. apply Forall_impl. intros e [He|He]; [left; auto | now right].
Qed.

Lemma answer_branch_frame cq a h c h' :
  answer_branch W question cq a h = (c, h') ->
  gaps h' = gaps h /\ allQuestions h' = allQuestions h /\ step h' = step h /\
  extends h h' /\
  entries_from a (context h) (context h') /\
  entries_from a (badContext h ++ context h) (badContext h') /\
  (action a <> "answer" -> context h' = context h).
Proof.
  intros E. destruct (string_dec (action a) "answer") as [Htag|Htag].
  - assert (Hp : produces_entry (action a)) by (now left).
    destruct (string_dec cq question) as [Hq|Hq].
    + rewrite answer_branch_original in E by assumption. cbv zeta in E.
      destruct (evaluateAnswer W (trace h) cq (answer a)) as [[|]|e];
        done_pair E; run;
        (repeat split;
         [now exists [EvEvaluateAnswer cq (answer a)]
         | try (now apply entries_from_push); try constructor
         | | congruence]).
      * apply entries_from_weaken with (old := badContext h);
          [apply incl_appl, incl_refl | apply entries_from_refl].
      * apply Forall_app. split.
        -- apply entries_from_weaken with (old := badContext h);
             [apply incl_appl, incl_refl | apply entries_from_refl].
        -- apply Forall_app. split.
           ++ apply entries_from_weaken with (old := context h);
                [apply incl_appr, incl_refl | apply entries_from_refl].
           ++ constructor; [right; now split | constructor].
      * apply entries_from_weaken with (old := badContext h);
          [apply incl_appl, incl_refl | apply entries_from_refl].
    + rewrite answer_branch_sub_question in E by assumption. done_pair E; run.
      repeat split;
        [exists []; cbn; now rewrite app_nil_r
        | now apply entries_from_push | | congruence].
      apply entries_from_weaken with (old := badContext h);
        [apply incl_appl, incl_refl | apply entries_from_refl].
  - rewrite answer_branch_skip in E by assumption. done_pair E.
    repeat split;
      [apply extends_refl | apply entries_from_refl | ].
    apply entries_from_weaken with (old := badContext h);
      [apply incl_appl, incl_refl | apply entries_from_refl].
Qed.

(** ** The reflect branch *)

Lemma reflect_branch_run a h questions novel :
  action a = "reflect" -> questionsToAnswer a = Some questions ->
  match allQuestions h with
  | [] => Resolves questions
  | _ :: _ => dedupQueries W (trace h) questions (allQuestions h)
  end = Resolves novel ->
  exists h',
    reflect_branch W question a h = (Normal tt, h') /\
    gaps h' = (gaps h ++ novel) ++ [question] /\
    allQuestions h' = allQuestions h ++ novel /\
    context h' = context h /\ badContext h' = badContext h /\
    step h' = step h /\ totalTokens h' = totalTokens h /\
    allKeywords h' = allKeywords h /\
    trace h' = trace h ++ match allQuestions h with
                          | [] => []
                          | _ :: _ => [EvDedupQueries questions (allQuestions h)]
                          end.
Proof.
  intros Htag Hqs Hnovel. unfold reflect_branch.
  apply String.eqb_eq in Htag. rewrite Hqs, Htag. run.
  destruct (allQuestions h) as [|q0 known] eqn:Hknown.
  - injection Hnovel as <-. run. rewrite Hknown. eexists. split; [reflexivity|].
    cbn. rewrite app_nil_r. repeat split; auto.
  - run. rewrite Hnovel. cbn iota. rewrite Hknown.
    eexists. split; [reflexivity|].
    cbn. repeat split; auto.
Qed.

Lemma reflect_branch_frame a h c h' :
  reflect_branch W question a h = (c, h') ->
  context h' = context h /\ badContext h' = badContext h /\
  step h' = step h /\ extends h h' /\
  ((gaps h' = gaps h /\ allQuestions h' = allQuestions h) \/
   exists novel, gaps h' = (gaps h ++ novel) ++ [question] /\
                 allQuestions h' = allQuestions h ++ novel).
Proof.
  intros E. destruct (string_dec (action a) "reflect") as [Htag|Htag].
  - destruct (questionsToAnswer a) as [questions|] eqn:Hqs.
    + destruct (match allQuestions h with
                | [] => Resolves questions
                | _ :: _ => dedupQueries W (trace h) questions (allQuestions h)
                end) as [novel|e] eqn:Hnovel.
      * destruct (@reflect_branch_run a h questions novel Htag Hqs Hnovel)
          as (h1 & E1 & G & Q & C & B & S1 & _ & _ & T).
        rewrite E1 in E. done_pair E. repeat split; auto.
        -- eexists; exact T.
        -- right. now exists novel.
      * unfold reflect_branch in E. apply String.eqb_eq in Htag.
        rewrite Hqs, Htag in E. run_in E.
        destruct (allQuestions h) as [|q0 known] eqn:Hknown; [discriminate|].
        run_in E. rewrite Hnovel in E. cbn iota in E. done_pair E.
        repeat split; auto; try (now eexists); left; cbn; auto.
    + unfold reflect_branch in E. rewrite Hqs in E. done_pair E.
      repeat split; auto. apply extends_refl.
  - rewrite reflect_branch_skip in E by assumption. done_pair E.
    repeat split; auto. apply extends_refl.
Qed.

(** ** The search and deep-dive branch *)

Lemma search_tail cq a queries h c h' :
  (searchResults <- search_each W queries [] ;;
   h0 <- get ;;
   modify (set_context
             (context h0 ++ [mkContextEntry (step h0) cq a
                                            (SearchResults searchResults)])))
    h = (c, h') ->
  settles c /\ gaps h' = gaps h /\ allQuestions h' = allQuestions h /\
  badContext h' = badContext h /\ step h' = step h /\ extends h h' /\
  (context h' = context h \/
   exists r, context h' = context h ++ [mkContextEntry (step h) cq a r]).
Proof.
  unfold bind at 1. intros E.
  pose proof (search_each_settles queries [] h) as Hs.
  destruct (search_each W queries [] h) as [c1 h1] eqn:E1.
  apply search_each_frame in E1. destruct E1 as [(C & G & Q & B & S1 & T) X].
  destruct c1 as [results| | |]; cbn in Hs; try contradiction.
  - run_in E. done_pair E. cbn. rewrite C, S1.
    repeat split; auto. right. eauto.
  - done_pair E. repeat split; auto.
Qed.

Lemma fetch_branch_frame cq a h c h' :
  fetch_branch W cq a h = (c, h') ->
  settles c /\ gaps h' = gaps h /\ allQuestions h' = allQuestions h /\
  badContext h' = badContext h /\ step h' = step h /\ extends h h' /\
  (context h' = context h \/
   exists r, context h' = context h ++ [mkContextEntry (step h) cq a r] /\
             (action a = "search" \/ action a = "deep dive")).
Proof.
  unfold fetch_branch.
  destruct (String.eqb (action a) "search") eqn:Hs;
    [destruct (truthy_string (searchQuery a))|]; cbn [andb].
  - (* search *)
    apply String.eqb_eq in Hs. unfold bind at 1, await at 1.
    destruct (rewriteQuery W (trace h) _) as [rewritten|e].
    + unfold bind at 1, get at 1. cbn [allKeywords log]. unfold bind at 1.
      intros E.
      destruct (allKeywords h) as [|k kws] eqn:Hk.
      * unfold ret at 1 in E. apply search_tail in E.
        unfold extends in E. run_in E.
        destruct E as (S0 & G & Q & B & S1 & [more T] & C).
        repeat split; auto.
        -- eexists. rewrite T, <- app_assoc. reflexivity.
        -- destruct C as [C|[r C]]; [now left | right; eauto].
      * unfold await at 1 in E. cbn [trace] in E.
        destruct (dedupQueries W _ rewritten (k :: kws)) as [novel|e].
        -- apply search_tail in E. unfold extends in E. run_in E.
           destruct E as (S0 & G & Q & B & S1 & [more T] & C).
           repeat split; auto.
           ++ eexists. rewrite T, <- !app_assoc. reflexivity.
           ++ destruct C as [C|[r C]]; [now left | right; eauto].
        -- done_pair E. run. repeat split; auto.
           eexists. rewrite <- app_assoc. reflexivity.
    + intros E. done_pair E. run. repeat split; auto. now eexists.
  - (* a search without a query: the deep-dive test is made *)
    destruct (String.eqb (action a) "deep dive") eqn:Hd.
    + apply String.eqb_eq in Hs, Hd. congruence.
    + intros E. done_pair E. repeat split; auto. apply extends_refl.
  - destruct (String.eqb (action a) "deep dive" && has_length (URLTargets a))
      eqn:Hd.
    + apply andb_prop in Hd. destruct Hd as [Hd _]. apply String.eqb_eq in Hd.
      unfold bind at 1.
      destruct (start_reads_spec
                  (match URLTargets a with Some urls => urls | None => [] end) h)
        as (pending & E1 & _).
      rewrite E1. destruct (promise_all pending) as [urlResults|e].
      * run. intros E. done_pair E. run. repeat split; auto.
        -- now eexists.
        -- right. eauto.
      * intros E. done_pair E. run. repeat split; auto. now eexists.
    + intros E. done_pair E. repeat split; auto. apply extends_refl.
Qed.

Lemma try_fetch_frame cq a h c h' :
  try_catch (fetch_branch W cq a) (fun _ => ret tt) h = (c, h') ->
  c = Normal tt /\ gaps h' = gaps h /\ allQuestions h' = allQuestions h /\
  badContext h' = badContext h /\ step h' = step h /\ extends h h' /\
  (context h' = context h \/
   exists r, context h' = context h ++ [mkContextEntry (step h) cq a r] /\
             (action a = "search" \/ action a = "deep dive")).
Proof.
  unfold try_catch.
  destruct (fetch_branch W cq a h) as [c1 h1] eqn:E1.
  apply fetch_branch_frame in E1. destruct E1 as (S0 & Rest).
  destruct c1 as [[]| | |]; cbn in S0; try contradiction;
    intros E; done_pair E; auto.
Qed.

(** ** A whole turn *)

Lemma entries_from_trans a old mid new :
  entries_from a old mid -> entries_from a mid new -> entries_from a old new.
Proof.
  intros Hmid Hnew. unfold entries_from in *. rewrite Forall_forall in *.
  intros e He. destruct (Hnew e He) as [Hin|Hfresh]; auto.
Qed.

Lemma dispatch_frame cq a h c h' :
  dispatch W question cq a h = (c, h') ->
  step h' = step h /\ extends h h' /\
  ((gaps h' = gaps h /\ allQuestions h' = allQuestions h) \/
   exists novel, gaps h' = (gaps h ++ novel) ++ [question] /\
                 allQuestions h' = allQuestions h ++ novel) /\
  entries_from a (context h) (context h') /\
  entries_from a (badContext h ++ context h) (badContext h') /\
  (~ produces_entry (action a) -> context h' = context h).
Proof.
  unfold dispatch. unfold bind at 1.
  destruct (answer_branch W question cq a h) as [c1 h1] eqn:E1.
  apply answer_branch_frame in E1.
  destruct E1 as (G1 & Q1 & S1 & X1 & C1 & B1 & K1).
  assert (Hkeep1 : ~ produces_entry (action a) -> context h1 = context h).
  { intros Hn. apply K1. intros Htag. apply Hn. now left. }
  destruct c1 as [[]| | |];
    try (intros E; done_pair E; repeat split; auto; left; auto).
  unfold bind at 1.
  destruct (reflect_branch W question a h1) as [c2 h2] eqn:E2.
  apply reflect_branch_frame in E2.
  destruct E2 as (C2 & B2 & S2 & X2 & G2).
  assert (Hgaps : (gaps h2 = gaps h /\ allQuestions h2 = allQuestions h) \/
                  exists novel, gaps h2 = (gaps h ++ novel) ++ [question] /\
                                allQuestions h2 = allQuestions h ++ novel).
  { rewrite <- G1, <- Q1. exact G2. }
  destruct c2 as [[]| | |];
    try (intros E; done_pair E; rewrite C2, B2, S2;
         repeat split; auto; eapply extends_trans; eauto).
  unfold bind at 1.
  destruct (try_catch (fetch_branch W cq a) (fun _ => ret tt) h2)
    as [c3 h3] eqn:E3.
  apply try_fetch_frame in E3.
  destruct E3 as (-> & G3 & Q3 & B3 & S3 & X3 & C3).
  unfold storeContext, modify. intros E. done_pair E. run.
  rewrite G3, Q3, B3, S3, B2, S2. repeat split; auto.
  - destruct X1 as [m1 T1], X2 as [m2 T2], X3 as [m3 T3].
    eexists. rewrite T3, T2, T1, <- !app_assoc. reflexivity.
  - eapply entries_from_trans; [exact C1|]. rewrite <- C2.
    destruct C3 as [->|(r & -> & Htag)]; [apply entries_from_refl|].
    apply entries_from_push; [reflexivity|].
    destruct Htag; [right; now left | right; now right].
  - intros Hn. destruct C3 as [->|(r & _ & Htag)].
    + rewrite C2. auto.
    + exfalso. apply Hn.
      destruct Htag; [right; now left | right; now right].
Qed.

Lemma loop_body_frame h c h' :
  loop_body W question h = (c, h') ->
  step h' = S (step h) /\
  (exists more,
     trace h' = trace h ++ EvSleep 1000 :: oracle_call W question h :: more) /\
  ((gaps h' = tl (gaps h) /\ allQuestions h' = allQuestions h) \/
   exists novel, gaps h' = (tl (gaps h) ++ novel) ++ [question] /\
                 allQuestions h' = allQuestions h ++ novel) /\
  Forall (fun e => In e (context h) \/ producing e) (context h') /\
  Forall (fun e => In e (badContext h ++ context h) \/ producing e)
         (badContext h').
Proof.
  rewrite loop_body_eq.
  assert (Hold : forall old, Forall (fun e => In e old \/ producing e) old).
  { intros old. apply Forall_forall. intros e He. now left. }
  assert (Hbad : Forall (fun e => In e (badContext h ++ context h) \/ producing e)
                        (badContext h)).
  { apply Forall_forall. intros e He. left. apply in_or_app. now left. }
  destruct (oracle_reply W question h) as [response|e].
  - destruct (parsed response) as [a|].
    + intros E. apply dispatch_frame in E. unfold decided, extends in E.
      run_in E. destruct E as (S1 & [more T] & G & C & B & _).
      repeat split; auto.
      * exists more. rewrite T, <- app_assoc. reflexivity.
      * revert C. apply Forall_impl. intros e [He|[<- Hp]]; auto.
      * revert B. apply Forall_impl. intros e [He|[<- Hp]]; auto.
    + intros E. done_pair E. unfold decided. run. repeat split; auto.
      now exists [].
  - intros E. done_pair E. unfold selected. run. repeat split; auto.
    exists []. now rewrite <- app_assoc.
Qed.

(** ** What holds whenever a turn starts *)

Lemma reachable_gaps tokenBudget h :
  reachable W question tokenBudget h -> ends_with question (gaps h).
Proof.
  induction 1 as [|h h' _ IH _ E].
  - right. now exists [].
  - apply loop_body_frame in E.
    destruct E as (_ & _ & [[G _]|[novel [G _]]] & _).
    + rewrite G. destruct IH as [->|[front ->]]; [now left|].
      destruct front as [|f front]; [now left | right; now exists front].
    + right. rewrite G. eauto.
Qed.

Lemma reachable_asked tokenBudget h :
  reachable W question tokenBudget h ->
  exists later, allQuestions h = question :: later.
Proof.
  induction 1 as [|h h' _ [later IH] _ E].
  - now exists [].
  - apply loop_body_frame in E.
    destruct E as (_ & _ & [[_ Q]|[novel [_ Q]]] & _).
    + exists later. congruence.
    + exists (later ++ novel). rewrite Q, IH. reflexivity.
Qed.

Lemma reachable_entries tokenBudget h :
  reachable W question tokenBudget h ->
  Forall producing (context h) /\ Forall producing (badContext h).
Proof.
  induction 1 as [|h h' _ [IHc IHb] _ E].
  - split; constructor.
  - apply loop_body_frame in E. destruct E as (_ & _ & _ & C & B).
    rewrite Forall_forall in C, B, IHc, IHb.
    split; apply Forall_forall; intros e He.
    + destruct (C e He) as [Hin|Hp]; auto.
    + destruct (B e He) as [Hin|Hp]; auto.
      apply in_app_or in Hin. destruct Hin; auto.
Qed.
End TurnFacts.

(** * The loop as a whole *)

Lemma exhausted_budget_stops W fuel question tokenBudget h :
  (tokenBudget <= totalTokens h)%Z ->
  while_loop W fuel question tokenBudget h = (Normal tt, h).
Proof.
  intros Hle. apply Z.ltb_ge in Hle.
  destruct fuel; cbn [while_loop]; rewrite Hle; reflexivity.
Qed.

Lemma while_loop_turn W fuel question tokenBudget h :
  (totalTokens h < tokenBudget)%Z ->
  while_loop W (S fuel) question tokenBudget h =
  (loop_body W question ;; while_loop W fuel question tokenBudget) h.
Proof.
  intros Hlt. apply Z.ltb_lt in Hlt. cbn [while_loop]. rewrite Hlt. reflexivity.
Qed.

Lemma while_loop_reachable W question tokenBudget fuel : forall h h',
  reachable W question tokenBudget h ->
  while_loop W fuel question tokenBudget h = (Normal tt, h') ->
  reachable W question tokenBudget h' /\ (tokenBudget <= totalTokens h')%Z.
Proof.
  induction fuel as [|fuel IH]; intros h h' Hr E; cbn [while_loop] in E;
    destruct (totalTokens h <? tokenBudget)%Z eqn:Hb;
    try discriminate;
    try (injection E as <-; split; [exact Hr | now apply Z.ltb_ge]).
  unfold bind in E.
  destruct (loop_body W question h) as [[[]| | |] h1] eqn:E1; try discriminate.
  apply IH with (h := h1); [|exact E].
  eapply reach_turn; eauto.
Qed.

Lemma oracle_call_ignores_badContext W question bad h :
  oracle_call W question (set_badContext bad h) = oracle_call W question h.
Proof. reflexivity. Qed.

(** * The controller's policy, claim by claim *)

Import Scenario.

(** C1, a run against it: the model answers the original question ["1+1="]
    with ["2"] and an empty list of references, and the evaluator finds
    the answer definitive.  The first turn returns that answer and so
    does [getResponse]; the original question is not in the gap queue. *)
Lemma unreferenced_answer_terminates :
  oracle_says accepting sum_question (initial sum_question)
              sum_reply bare_answer /\
  evaluator_reply accepting sum_question (initial sum_question) bare_answer
  = Resolves true /\
  references bare_answer = Some [] /\
  fst (loop_body accepting sum_question (initial sum_question))
  = Returned bare_answer /\
  fst (getResponse accepting 1 sum_question default_tokenBudget)
  = Returned bare_answer /\
  ~ In sum_question
       (gaps (snd (loop_body accepting sum_question (initial sum_question)))).
Proof.
  repeat split; try (vm_compute; reflexivity).
  vm_compute. auto.
Qed.

(** C1, as the code has it: when the model answers the original question
    and the evaluator finds the answer definitive, the turn returns the
    action and the loop ends with it, whatever the action carries as
    [references]: the field is not read.  The answer's entry has been
    pushed on the context log and the gap queue is as the pop left it. *)
Theorem definitive_answer_ends_run W question h response a :
  oracle_says W question h response a ->
  action a = "answer" ->
  current_question question h = question ->
  evaluator_reply W question h a = Resolves true ->
  exists h',
    loop_body W question h = (Returned a, h') /\
    context h' = context h ++ [answer_entry question h a] /\
    gaps h' = tl (gaps h) /\
    forall fuel tokenBudget,
      (totalTokens h < tokenBudget)%Z ->
      while_loop W (S fuel) question tokenBudget h = (Returned a, h').
Proof.
  intros Hsays Htag Hq Hverdict.
  assert (E : exists h',
             loop_body W question h = (Returned a, h') /\
             context h' = context h ++ [answer_entry question h a] /\
             gaps h' = tl (gaps h)).
  { rewrite (loop_body_says Hsays). unfold dispatch, bind.
    rewrite answer_branch_original by assumption. cbv zeta.
    unfold decided at 1. cbn [trace].
    unfold evaluator_reply, decision_log in Hverdict. rewrite Hverdict.
    eexists. split; [reflexivity|]. split; reflexivity. }
  destruct E as (h' & E & C & G). exists h'. repeat split; auto.
  intros fuel tokenBudget Hlt. rewrite while_loop_turn by assumption.
  unfold bind. rewrite E. reflexivity.
Qed.

(** The hypotheses of [definitive_answer_ends_run] hold in the accepting
    run, where the returned answer has no references. *)
Lemma definitive_answer_ends_run_witness :
  (oracle_says accepting sum_question (initial sum_question)
               sum_reply bare_answer /\
   action bare_answer = "answer" /\
   current_question sum_question (initial sum_question) = sum_question /\
   evaluator_reply accepting sum_question (initial sum_question) bare_answer
   = Resolves true) /\
  exists h',
    loop_body accepting sum_question (initial sum_question)
    = (Returned bare_answer, h') /\
    references bare_answer = Some [].
Proof.
  assert (Hs : oracle_says accepting sum_question (initial sum_question)
                           sum_reply bare_answer)
    by (split; vm_compute; reflexivity).
  split; [repeat split; solve [assumption | reflexivity | apply Hs]|].
  destruct (@definitive_answer_ends_run accepting sum_question
              (initial sum_question) sum_reply bare_answer
              Hs eq_refl eq_refl eq_refl) as (h' & E & _).
  exists h'. split; [exact E | reflexivity].
Defined.

(** C2, for a budget ceiling of 0: whatever the collaborators would
    answer and however many turns are allowed, [getResponse] leaves the
    loop at once, without a value, with the variables as they were
    initialised and with an empty log: no call to the model is made, and
    no answer is produced. *)
Theorem zero_budget_makes_no_call (W : World) (fuel : nat) (question : string) :
  getResponse W fuel question 0 = (Normal tt, initial question) /\
  trace (snd (getResponse W fuel question 0)) = [].
Proof.
  unfold getResponse.
  rewrite exhausted_budget_stops by (cbn; lia). split; reflexivity.
Qed.

(** C3, a run against it: the model answers the original question and the
    evaluator call fails.  The turn does not complete: the error leaves
    [loop_body], and nothing has been stored as bad context. *)
Lemma evaluator_failure_ends_run :
  oracle_says failing_evaluator sum_question (initial sum_question)
              sum_reply bare_answer /\
  evaluator_reply failing_evaluator sum_question (initial sum_question)
                  bare_answer
  = Rejects "EvaluationFailed" /\
  fst (loop_body failing_evaluator sum_question (initial sum_question))
  = Thrown "EvaluationFailed" /\
  badContext
    (snd (loop_body failing_evaluator sum_question (initial sum_question)))
  = [] /\
  ~ (exists h',
        loop_body failing_evaluator sum_question (initial sum_question)
        = (Normal tt, h')).
Proof.
  repeat split; try (vm_compute; reflexivity).
  intros [h' E]. apply (f_equal fst) in E. vm_compute in E. discriminate.
Qed.

(** C3, as the code has it: when the evaluator call fails on an answer to
    the original question, the turn ends with the evaluator's error, and
    so does the loop (no answer is returned); the answer's entry has been
    pushed on the context log, the bad-attempt log is unchanged, and no
    further turn is run. *)
Theorem evaluator_failure_propagates W question h response a e :
  oracle_says W question h response a ->
  action a = "answer" ->
  current_question question h = question ->
  evaluator_reply W question h a = Rejects e ->
  exists h',
    loop_body W question h = (Thrown e, h') /\
    context h' = context h ++ [answer_entry question h a] /\
    badContext h' = badContext h /\
    forall fuel tokenBudget,
      (totalTokens h < tokenBudget)%Z ->
      while_loop W (S fuel) question tokenBudget h = (Thrown e, h').
Proof.
  intros Hsays Htag Hq Hverdict.
  assert (E : exists h',
             loop_body W question h = (Thrown e, h') /\
             context h' = context h ++ [answer_entry question h a] /\
             badContext h' = badContext h).
  { rewrite (loop_body_says Hsays). unfold dispatch, bind.
    rewrite answer_branch_original by assumption. cbv zeta.
    unfold decided at 1. cbn [trace].
    unfold evaluator_reply, decision_log in Hverdict. rewrite Hverdict.
    eexists. split; [reflexivity|]. split; reflexivity. }
  destruct E as (h' & E & C & B). exists h'. repeat split; auto.
  intros fuel tokenBudget Hlt. rewrite while_loop_turn by assumption.
  unfold bind. rewrite E. reflexivity.
Qed.

(** The hypotheses of [evaluator_failure_propagates] hold in the run with
    the failing evaluator. *)
Lemma evaluator_failure_propagates_witness :
  exists h',
    loop_body failing_evaluator "1+1=" (initial "1+1=")
    = (Thrown "EvaluationFailed", h') /\
    context h' = context (initial "1+1=")
                 ++ [answer_entry "1+1=" (initial "1+1=") bare_answer] /\
    badContext h' = badContext (initial "1+1=") /\
    forall fuel tokenBudget,
      (totalTokens (initial "1+1=") < tokenBudget)%Z ->
      while_loop failing_evaluator (S fuel) "1+1=" tokenBudget (initial "1+1=")
      = (Thrown "EvaluationFailed", h').
Proof.
  apply (@evaluator_failure_propagates failing_evaluator "1+1=" (initial "1+1=")
           (mkResponse (Some 10%Z) (Some bare_answer)) bare_answer
           "EvaluationFailed").
  - split; vm_compute; reflexivity.
  - reflexivity.
  - reflexivity.
  - reflexivity.
Defined.

(** C4, on a run with a rejected first attempt: after the first turn the
    bad-attempt log holds the rejected answer, yet the prompt of the
    second call to the model is the prompt of the first call, letter for
    letter: it is built without the bad-attempt log, and differs from the
    prompt that [getPrompt] builds when it is given that log. *)
Theorem retry_prompt_omits_bad_attempts :
  badContext after_rejection
  = [answer_entry sum_question (initial sum_question) bare_answer] /\
  prompts_sent
    (trace (snd (getResponse rejecting 2 sum_question default_tokenBudget)))
  = [plain_prompt; plain_prompt] /\
  plain_prompt <>
  getPrompt show_entries sum_question (Some (context after_rejection))
            (Some (allQuestions after_rejection))
            (allow_reflect after_rejection)
            (Some (badContext after_rejection)).
Proof.
  split; [|split].
  - vm_compute. reflexivity.
  - vm_compute. reflexivity.
  - vm_compute. discriminate.
Qed.

(** C5, a run against it: the evaluator rejects the answer to the original
    question given in the first turn; the turn completes and the gap queue
    is empty afterwards, the original question has not been pushed back. *)
Lemma rejected_answer_not_requeued :
  oracle_says rejecting sum_question (initial sum_question)
              sum_reply bare_answer /\
  evaluator_reply rejecting sum_question (initial sum_question) bare_answer
  = Resolves false /\
  fst (loop_body rejecting sum_question (initial sum_question)) = Normal tt /\
  gaps (snd (loop_body rejecting sum_question (initial sum_question))) = [] /\
  ~ In sum_question
       (gaps (snd (loop_body rejecting sum_question (initial sum_question)))).
Proof.
  repeat split; try (vm_compute; reflexivity).
  vm_compute. auto.
Qed.

(** C5, as the code has it: when the evaluator rejects an answer to the
    original question, the whole context log, the rejected answer's entry
    last, is appended to the bad-attempt log and the context log is
    emptied; the gap queue stays as the pop left it, and when it is empty
    the next turn selects the original question. *)
Theorem rejected_answer_becomes_bad_context W question h response a :
  oracle_says W question h response a ->
  action a = "answer" ->
  current_question question h = question ->
  evaluator_reply W question h a = Resolves false ->
  exists h',
    loop_body W question h = (Normal tt, h') /\
    badContext h' = badContext h ++ context h ++ [answer_entry question h a] /\
    context h' = [] /\
    gaps h' = tl (gaps h) /\
    (gaps h' = [] -> current_question question h' = question).
Proof.
  intros Hsays Htag Hq Hverdict.
  rewrite (loop_body_says Hsays). unfold dispatch. unfold bind at 1.
  rewrite answer_branch_original by assumption. cbv zeta.
  unfold decided at 1. cbn [trace].
  unfold evaluator_reply, decision_log in Hverdict. rewrite Hverdict.
  unfold bind at 1. rewrite reflect_branch_skip by (rewrite Htag; discriminate).
  unfold bind at 1, try_catch.
  rewrite fetch_branch_skip by (rewrite Htag; discriminate).
  eexists. split; [reflexivity|]. cbn.
  repeat split; auto.
  unfold current_question. cbn. intros ->. reflexivity.
Qed.

(** The hypotheses of [rejected_answer_becomes_bad_context] hold in the
    first turn of the rejecting run. *)
Lemma rejected_answer_becomes_bad_context_witness :
  (oracle_says rejecting "1+1=" (initial "1+1=")
               (mkResponse (Some 10%Z) (Some bare_answer)) bare_answer /\
   action bare_answer = "answer" /\
   current_question "1+1=" (initial "1+1=") = "1+1=" /\
   evaluator_reply rejecting "1+1=" (initial "1+1=") bare_answer
   = Resolves false) /\
  exists h',
    loop_body rejecting "1+1=" (initial "1+1=") = (Normal tt, h') /\
    badContext h' = [answer_entry "1+1=" (initial "1+1=") bare_answer] /\
    context h' = [] /\
    gaps h' = [] /\
    (gaps h' = [] -> current_question "1+1=" h' = "1+1=").
Proof.
  assert (Hs : oracle_says rejecting "1+1=" (initial "1+1=")
                 (mkResponse (Some 10%Z) (Some bare_answer)) bare_answer)
    by (split; vm_compute; reflexivity).
  split; [repeat split; solve [assumption | reflexivity | apply Hs]|].
  exact (@rejected_answer_becomes_bad_context _ _ _ _ _
           Hs eq_refl eq_refl eq_refl).
Defined.

(** The heap between the first and the second turn of the rejecting run. *)
Lemma first_rejection_reachable :
  reachable rejecting sum_question default_tokenBudget after_rejection.
Proof.
  apply reach_turn with (h := initial sum_question).
  - apply reach_initial.
  - reflexivity.
  - vm_compute. reflexivity.
Qed.

(** C6, a run against it: after the first turn of the rejecting run the
    budget is not spent, so a second turn will start; at that point,
    between the two turns, the gap queue is empty and does not hold the
    original question ([currentQuestion] is a constant of the loop body:
    between two turns there is no selected question). *)
Lemma queue_empty_between_turns :
  reachable rejecting sum_question default_tokenBudget after_rejection /\
  (totalTokens after_rejection <? default_tokenBudget)%Z = true /\
  gaps after_rejection = [] /\
  ~ In sum_question (gaps after_rejection).
Proof.
  split; [exact first_rejection_reachable|].
  repeat split; try (vm_compute; reflexivity).
  vm_compute. auto.
Qed.

(** C6, as the code has it: in every turn the loop can start, the
    selection of line 243 yields a question, the model is called with the
    prompt built for that question, and from then on the original question
    is the selected one or is in the gap queue, both once the head has
    been popped and when the turn ends, however it ends; when the turn
    finds the queue empty the selection is the original question. *)
Theorem original_question_live_within_turn W question tokenBudget h :
  reachable W question tokenBudget h ->
  exists selectedQuestion afterPop,
    shift_gaps question (set_step (S (step h)) (log (EvSleep 1000) h))
    = (Normal selectedQuestion, afterPop) /\
    (exists more,
        trace (snd (loop_body W question h)) =
        trace h ++
        EvSleep 1000
          :: EvGenerateContent
               (getPrompt (JSON_stringify W) selectedQuestion
                          (Some (context h)) (Some (allQuestions h))
                          (Nat.leb (length (gaps h)) 1) None)
               (getSchema (Nat.leb (length (gaps h)) 1))
          :: more) /\
    (selectedQuestion = question \/ In question (gaps afterPop)) /\
    (selectedQuestion = question \/
     In question (gaps (snd (loop_body W question h)))) /\
    (gaps h = [] -> selectedQuestion = question).
Proof.
  intros Hr. apply reachable_gaps in Hr.
  destruct (loop_body W question h) as [c h'] eqn:E.
  apply loop_body_frame in E.
  destruct E as (_ & [more T] & G & _). cbn [snd].
  unfold oracle_call, current_question, allow_reflect in T.
  unfold shift_gaps, set_step, log. cbn [gaps].
  destruct (gaps h) as [|head rest] eqn:Hgaps.
  - exists question. eexists. split; [reflexivity|].
    split; [exists more; exact T|]. auto.
  - exists head. eexists. split; [reflexivity|].
    split; [exists more; exact T|]. unfold set_gaps. cbn [gaps tl] in *.
    assert (Hlive : head = question \/ In question rest).
    { destruct Hr as [Hr|[front Hr]]; [discriminate|].
      destruct front as [|f front]; injection Hr as -> ->.
      - now left.
      - right. apply in_or_app. right. now left. }
    split; [exact Hlive|]. split; [|discriminate].
    destruct Hlive as [Hq|Hin]; [now left | right].
    destruct G as [[-> _]|[novel [-> _]]]; [exact Hin|].
    apply in_or_app. right. now left.
Qed.

(** The second turn of the rejecting run finds the queue empty and
    selects the original question. *)
Lemma original_question_live_within_turn_witness :
  reachable rejecting sum_question default_tokenBudget after_rejection /\
  exists selectedQuestion afterPop,
    shift_gaps sum_question
               (set_step (S (step after_rejection))
                         (log (EvSleep 1000) after_rejection))
    = (Normal selectedQuestion, afterPop) /\
    selectedQuestion = sum_question.
Proof.
  split; [exact first_rejection_reachable|].
  destruct (@original_question_live_within_turn rejecting sum_question
              default_tokenBudget after_rejection first_rejection_reachable)
    as (selectedQuestion & afterPop & E & _ & _ & _ & Hfallback).
  exists selectedQuestion, afterPop. split; [exact E|].
  apply Hfallback. vm_compute. reflexivity.
Defined.


(** C8: when the model returns a reflect action with questions, they are
    passed to the deduplicator together with all the questions asked so
    far; the survivors are appended in order to the gap queue and to
    [allQuestions], and the original question is appended to the gap queue
    after them. *)
Theorem reflect_enqueues_novel_questions
        W question h response a questions novel :
  oracle_says W question h response a ->
  action a = "reflect" ->
  questionsToAnswer a = Some questions ->
  surviving W question h questions = Resolves novel ->
  exists h',
    loop_body W question h = (Normal tt, h') /\
    gaps h' = tl (gaps h) ++ novel ++ [question] /\
    allQuestions h' = allQuestions h ++ novel /\
    (allQuestions h <> [] ->
     In (EvDedupQueries questions (allQuestions h)) (trace h')).
Proof.
  intros Hsays Htag Hqs Hnovel.
  rewrite (loop_body_says Hsays). unfold dispatch. unfold bind at 1.
  rewrite answer_branch_skip by (rewrite Htag; discriminate).
  unfold bind at 1.
  destruct (@reflect_branch_run W question a (decided W question response h)
              questions novel Htag Hqs Hnovel)
    as (h1 & E1 & G & Q & _ & _ & _ & _ & _ & T).
  rewrite E1. unfold bind at 1, try_catch.
  rewrite fetch_branch_skip by (rewrite Htag; discriminate).
  eexists. split; [reflexivity|].
  unfold storeContext, modify, log. cbn [gaps allQuestions trace].
  rewrite G, Q, T. cbn [decided gaps allQuestions trace].
  split; [now rewrite <- app_assoc|]. split; [reflexivity|].
  intros Hne. destruct (allQuestions h) as [|q0 known]; [congruence|].
  apply in_or_app. left. apply in_or_app. right. now left.
Qed.

(** The third scenario of the specification: the queue holds the original
    question only and the model reflects with two new questions. *)
Lemma reflect_enqueues_novel_questions_witness :
  (oracle_says reflecting "why" (initial "why")
               (mkResponse (Some 10%Z) (Some (reflect_on ["Q1"; "Q2"])))
               (reflect_on ["Q1"; "Q2"]) /\
   action (reflect_on ["Q1"; "Q2"]) = "reflect" /\
   questionsToAnswer (reflect_on ["Q1"; "Q2"]) = Some ["Q1"; "Q2"] /\
   surviving reflecting "why" (initial "why") ["Q1"; "Q2"]
   = Resolves ["Q1"; "Q2"]) /\
  exists h',
    loop_body reflecting "why" (initial "why") = (Normal tt, h') /\
    gaps h' = tl (gaps (initial "why")) ++ ["Q1"; "Q2"] ++ ["why"] /\
    allQuestions h' = allQuestions (initial "why") ++ ["Q1"; "Q2"] /\
    (allQuestions (initial "why") <> [] ->
     In (EvDedupQueries ["Q1"; "Q2"] (allQuestions (initial "why")))
        (trace h')).
Proof.
  assert (Hs : oracle_says reflecting "why" (initial "why")
                 (mkResponse (Some 10%Z) (Some (reflect_on ["Q1"; "Q2"])))
                 (reflect_on ["Q1"; "Q2"]))
    by (split; vm_compute; reflexivity).
  assert (Hn : surviving reflecting "why" (initial "why") ["Q1"; "Q2"]
               = Resolves ["Q1"; "Q2"]) by (vm_compute; reflexivity).
  split; [repeat split; solve [assumption | reflexivity | apply Hs]|].
  exact (@reflect_enqueues_novel_questions _ _ _ _ _ _ _ Hs eq_refl eq_refl Hn).
Defined.

(** C9, a run against it: a deep dive over two URLs, the first of which
    can be read and the second cannot.  The turn completes, and the
    context log is still empty: the page that was read is not recorded. *)
Lemma failed_fetch_drops_batch :
  oracle_says diving page_question (initial page_question)
              (mkResponse (Some 10%Z) (Some (deep_dive pages)))
              (deep_dive pages) /\
  read_outcomes diving
                (decision_log diving page_question (initial page_question))
                pages
  = [Resolves (mkReadResponse "page a" 7); Rejects "fetch failed"] /\
  fst (loop_body diving page_question (initial page_question)) = Normal tt /\
  context (snd (loop_body diving page_question (initial page_question))) = [].
Proof.
  repeat split; vm_compute; reflexivity.
Qed.

(** C9, as the code has it: when one fetch of a deep dive fails, every URL
    of the batch has been requested, no context entry is pushed for the
    turn, the token count only grows by the cost of the model's call, and
    the turn completes normally after the snapshot is stored. *)
Theorem failed_fetch_discards_batch W question h response a urls e :
  oracle_says W question h response a ->
  action a = "deep dive" ->
  URLTargets a = Some urls ->
  In (Rejects e) (read_outcomes W (decision_log W question h) urls) ->
  exists h',
    loop_body W question h = (Normal tt, h') /\
    context h' = context h /\
    badContext h' = badContext h /\
    totalTokens h' = (totalTokens h + token_count response)%Z /\
    trace h' = decision_log W question h ++ map EvReadUrl urls
               ++ [EvStoreContext (context h) (allKeywords h) (allQuestions h)].
Proof.
  intros Hsays Htag Hurls Hfail.
  rewrite (loop_body_says Hsays). unfold dispatch. unfold bind at 1.
  rewrite answer_branch_skip by (rewrite Htag; discriminate).
  unfold bind at 1.
  rewrite reflect_branch_skip by (rewrite Htag; discriminate).
  unfold bind at 1, try_catch, fetch_branch.
  rewrite Htag, Hurls.
  assert (Hlen : has_length (Some urls) = true).
  { destruct urls; [destruct Hfail | reflexivity]. }
  rewrite Hlen. cbn [String.eqb Ascii.eqb Bool.eqb andb].
  unfold bind at 1.
  destruct (start_reads_spec W urls (decided W question response h))
    as (pending & E1 & F).
  rewrite E1.
  destruct (promise_all_rejects e F Hfail) as [e' Hall].
  rewrite Hall. unfold throw, ret, storeContext, modify, log.
  eexists. split; [reflexivity|].
  cbn [context badContext totalTokens trace decided allKeywords allQuestions].
  repeat split. unfold decision_log. now rewrite <- app_assoc.
Qed.

(** The hypotheses of [failed_fetch_discards_batch] hold in the run with
    the page that cannot be read. *)
Lemma failed_fetch_discards_batch_witness :
  (oracle_says diving "which page" (initial "which page")
     (mkResponse (Some 10%Z)
        (Some (deep_dive ["http://a.example"; "http://b.example"])))
     (deep_dive ["http://a.example"; "http://b.example"]) /\
   In (Rejects "fetch failed")
      (read_outcomes diving
         (decision_log diving "which page" (initial "which page"))
         ["http://a.example"; "http://b.example"])) /\
  exists h',
    loop_body diving "which page" (initial "which page") = (Normal tt, h') /\
    context h' = [] /\
    totalTokens h' = 10%Z.
Proof.
  assert (Hs : oracle_says diving "which page" (initial "which page")
                 (mkResponse (Some 10%Z)
                    (Some (deep_dive ["http://a.example"; "http://b.example"])))
                 (deep_dive ["http://a.example"; "http://b.example"]))
    by (split; vm_compute; reflexivity).
  assert (Hf : In (Rejects "fetch failed")
                  (read_outcomes diving
                     (decision_log diving "which page" (initial "which page"))
                     ["http://a.example"; "http://b.example"]))
    by (right; left; reflexivity).
  split; [split; assumption|].
  destruct (@failed_fetch_discards_batch _ _ _ _ _ _ _ Hs eq_refl eq_refl Hf)
    as (h' & E & C & _ & T & _).
  exists h'. repeat split; assumption.
Defined.

(** C10: a turn in which the model chooses reflect leaves the context log
    as it was; after any turn, an entry of the context log is an old one
    or carries the tag answer, search or deep dive; hence whenever a turn
    starts every entry of the context log and of the bad-attempt log
    carries one of these three tags, never reflect. *)
Theorem reflect_pushes_no_entry W question tokenBudget h response a :
  reachable W question tokenBudget h ->
  oracle_says W question h response a ->
  action a = "reflect" ->
  context (snd (loop_body W question h)) = context h /\
  (forall h0,
      Forall (fun e => In e (context h0) \/ producing e)
             (context (snd (loop_body W question h0)))) /\
  Forall producing (context h) /\
  Forall producing (badContext h) /\
  ~ produces_entry "reflect".
Proof.
  intros Hr Hsays Htag.
  assert (Hn : ~ produces_entry "reflect")
    by (intros [H|[H|H]]; discriminate).
  split; [|split; [|split; [|split]]].
  - rewrite (loop_body_says Hsays).
    destruct (dispatch W question (current_question question h) a
                       (decided W question response h)) as [c h'] eqn:E.
    apply dispatch_frame in E. destruct E as (_ & _ & _ & _ & _ & K).
    cbn [snd]. rewrite K; [reflexivity | now rewrite Htag].
  - intros h0. destruct (loop_body W question h0) as [c h'] eqn:E.
    apply loop_body_frame in E. destruct E as (_ & _ & _ & C & _). exact C.
  - eapply reachable_entries; eassumption.
  - eapply reachable_entries; eassumption.
  - exact Hn.
Qed.

(** The hypotheses of [reflect_pushes_no_entry] hold in the first turn of
    the reflecting run. *)
Lemma reflect_pushes_no_entry_witness :
  (reachable reflecting "why" default_tokenBudget (initial "why") /\
   oracle_says reflecting "why" (initial "why")
               (mkResponse (Some 10%Z) (Some (reflect_on ["Q1"; "Q2"])))
               (reflect_on ["Q1"; "Q2"]) /\
   action (reflect_on ["Q1"; "Q2"]) = "reflect") /\
  context (snd (loop_body reflecting "why" (initial "why"))) = [].
Proof.
  assert (Hr : reachable reflecting "why" default_tokenBudget (initial "why"))
    by apply reach_initial.
  assert (Hs : oracle_says reflecting "why" (initial "why")
                 (mkResponse (Some 10%Z) (Some (reflect_on ["Q1"; "Q2"])))
                 (reflect_on ["Q1"; "Q2"]))
    by (split; vm_compute; reflexivity).
  split; [repeat split; solve [assumption | reflexivity | apply Hs]|].
  exact (proj1 (@reflect_pushes_no_entry _ _ _ _ _ _ Hr Hs eq_refl)).
Defined.

(** * Further properties of the loop *)

Section CallFacts.

Variable W : World.
Variable question : string.

(** ** The calls made by each branch *)

Lemma answer_branch_calls cq a h c h' :
  answer_branch W question cq a h = (c, h') ->
  totalTokens h' = totalTokens h /\ allKeywords h' = allKeywords h /\
  exists more, trace h' = trace h ++ more /\
               Forall (caused_by question a) more.
Proof.
  intros E. destruct (string_dec (action a) "answer") as [Htag|Htag].
  - destruct (string_dec cq question) as [Hq|Hq].
    + rewrite answer_branch_original in E by assumption. cbv zeta in E.
      destruct (evaluateAnswer W (trace h) cq (answer a)) as [[|]|e];
        done_pair E; run; (split; [reflexivity|]); (split; [reflexivity|]);
        exists [EvEvaluateAnswer cq (answer a)];
        (split; [reflexivity|]); constructor; cbn; auto.
    + rewrite answer_branch_sub_question in E by assumption. done_pair E. run.
      split; [reflexivity|]. split; [reflexivity|].
      exists []. split; [now rewrite app_nil_r | constructor].
  - rewrite answer_branch_skip in E by assumption. done_pair E.
    split; [reflexivity|]. split; [reflexivity|].
    exists []. split; [now rewrite app_nil_r | constructor].
Qed.

Lemma answer_branch_returned cq a h v h' :
  answer_branch W question cq a h = (Returned v, h') ->
  v = a /\ action a = "answer" /\ cq = question /\
  evaluateAnswer W (trace h) cq (answer a) = Resolves true /\
  context h' = context h ++ [mkContextEntry (step h) cq a NoResult] /\
  trace h' = trace h ++ [EvEvaluateAnswer cq (answer a)].
Proof.
  intros E. destruct (string_dec (action a) "answer") as [Htag|Htag].
  - destruct (string_dec cq question) as [Hq|Hq].
    + rewrite answer_branch_original in E by assumption. cbv zeta in E.
      destruct (evaluateAnswer W (trace h) cq (answer a)) as [[|]|e];
        try discriminate.
      injection E as <- <-. run. repeat split; auto.
    + rewrite answer_branch_sub_question in E by assumption. discriminate.
  - rewrite answer_branch_skip in E by assumption. discriminate.
Qed.

Lemma reflect_branch_calls a h c h' :
  reflect_branch W question a h = (c, h') ->
  settles c /\
  totalTokens h' = totalTokens h /\ allKeywords h' = allKeywords h /\
  exists more, trace h' = trace h ++ more /\
               Forall (caused_by question a) more.
Proof.
  intros E. destruct (string_dec (action a) "reflect") as [Htag|Htag].
  - destruct (questionsToAnswer a) as [questions|] eqn:Hqs.
    + destruct (match allQuestions h with
                | [] => Resolves questions
                | _ :: _ => dedupQueries W (trace h) questions (allQuestions h)
                end) as [novel|e] eqn:Hnovel.
      * destruct (@reflect_branch_run W question a h questions novel
                    Htag Hqs Hnovel)
          as (h1 & E1 & _ & _ & _ & _ & _ & T & K & X).
        rewrite E1 in E. done_pair E.
        split; [exact I|]. split; [exact T|]. split; [exact K|].
        eexists. split; [exact X|].
        destruct (allQuestions h); constructor; cbn; auto.
      * unfold reflect_branch in E. apply String.eqb_eq in Htag.
        rewrite Hqs, Htag in E. run_in E.
        destruct (allQuestions h) as [|q0 known] eqn:Hknown; [discriminate|].
        run_in E. rewrite Hnovel in E. cbn iota in E. done_pair E.
        apply String.eqb_eq in Htag. run.
        split; [exact I|]. split; [reflexivity|]. split; [reflexivity|].
        eexists. split; [reflexivity|].
        constructor; cbn; auto.
    + unfold reflect_branch in E. rewrite Hqs in E. done_pair E.
      split; [exact I|]. split; [reflexivity|]. split; [reflexivity|].
      exists []. split; [now rewrite app_nil_r | constructor].
  - rewrite reflect_branch_skip in E by assumption. done_pair E.
    split; [exact I|]. split; [reflexivity|]. split; [reflexivity|].
    exists []. split; [now rewrite app_nil_r | constructor].
Qed.

Lemma search_each_calls a queries :
  action a = "search" ->
  forall acc h c h',
    search_each W queries acc h = (c, h') ->
    exists ks more,
      allKeywords h' = allKeywords h ++ ks /\
      trace h' = trace h ++ more /\
      Forall (caused_by question a) more /\
      (forall k, In k ks -> In (EvSearch k) more).
Proof.
  intros Htag. induction queries as [|query rest IH]; intros acc h c h' E.
  - cbn in E. done_pair E. exists [], []. rewrite !app_nil_r.
    repeat split; auto; intros k Hk; destruct Hk.
  - cbn [search_each] in E. run_in E.
    destruct (search W (trace h) query) as [results|e]; cbn iota in E.
    + apply IH in E. run_in E. destruct E as (ks & more & K & T & F & S0).
      exists (query :: ks), (EvSearch query :: EvSleep 5000 :: more).
      rewrite K, T, <- !app_assoc. cbn [app]. repeat split; auto.
      * constructor; [exact Htag|]. constructor; [now split | exact F].
      * intros k [<-|Hk]; [now left | right; right; auto].
    + done_pair E. run. exists [], [EvSearch query]. rewrite app_nil_r.
      repeat split; auto; intros k Hk; destruct Hk.
Qed.

(** ** Searches and fetches that all resolve, or fail on the way *)

Lemma search_each_resolved queries : forall hits acc h,
  search_outcomes W (trace h) queries = map (@Resolves _) hits ->
  search_each W queries acc h =
    (Normal (acc ++ search_results queries hits),
     mkHeap (totalTokens h) (context h) (step h) (gaps h) (allQuestions h)
            (allKeywords h ++ queries) (badContext h)
            (trace h ++ search_calls queries)).
Proof.
  induction queries as [|query rest IH]; intros hits acc h E.
  - destruct h. cbn. now rewrite !app_nil_r.
  - destruct hits as [|hit hits]; [discriminate|].
    cbn [search_outcomes map] in E. injection E as E0 E.
    cbn [search_each]. run. rewrite E0. cbn iota.
    rewrite (IH hits); [|run; rewrite <- app_assoc; exact E].
    run. unfold search_results, search_calls. cbn.
    now rewrite <- !app_assoc.
Qed.

Lemma search_each_rejected queries : forall hits e later acc h,
  search_outcomes W (trace h) queries
  = map (@Resolves _) hits ++ Rejects e :: later ->
  exists h',
    search_each W queries acc h = (Thrown e, h') /\
    allKeywords h' = allKeywords h ++ firstn (length hits) queries /\
    context h' = context h /\ totalTokens h' = totalTokens h /\
    gaps h' = gaps h /\ badContext h' = badContext h /\
    trace h' = trace h ++ search_calls (firstn (length hits) queries)
                       ++ [EvSearch (nth (length hits) queries "")].
Proof.
  induction queries as [|query rest IH]; intros hits e later acc h E.
  - destruct hits; discriminate.
  - destruct hits as [|hit hits].
    + cbn [search_outcomes map app] in E. injection E as E0 _.
      cbn [search_each]. run. rewrite E0. cbn iota.
      eexists. split; [reflexivity|]. cbn. rewrite app_nil_r. auto 10.
    + cbn [search_outcomes map app] in E. injection E as E0 E.
      cbn [search_each]. run. rewrite E0. cbn iota.
      edestruct (IH hits e later) as (h' & E' & K & C & T & G & B & X);
        [|rewrite E'; exists h'; split; [reflexivity|]].
      * run. rewrite <- app_assoc. exact E.
      * run_in K. run_in C. run_in T. run_in G. run_in B. run_in X.
        rewrite K, X. cbn. rewrite <- !app_assoc. auto 10.
Qed.

Lemma promise_all_resolved {A : Type} (values : list A) :
  promise_all (map (@Resolves _) values) = Resolves values.
Proof.
  induction values as [|v values IH]; [reflexivity|].
  cbn. now rewrite IH.
Qed.

Lemma start_reads_resolved urls : forall responses h,
  read_outcomes W (trace h) urls = map (@Resolves _) responses ->
  start_reads W urls h =
    (Normal (map (@Resolves _) (url_results urls responses)),
     mkHeap (totalTokens h) (context h) (step h) (gaps h) (allQuestions h)
            (allKeywords h) (badContext h) (trace h ++ map EvReadUrl urls)).
Proof.
  induction urls as [|target rest IH]; intros responses h E.
  - destruct h. cbn. now rewrite app_nil_r.
  - destruct responses as [|response responses]; [discriminate|].
    cbn [read_outcomes map] in E. injection E as E0 E.
    cbn [start_reads]. run.
    rewrite (IH responses); [|run; exact E].
    run. rewrite E0. cbn. now rewrite <- app_assoc.
Qed.

Lemma read_outcomes_in urls : forall history outcome,
  In outcome (read_outcomes W history urls) ->
  exists history' target, outcome = readUrl W history' target.
Proof.
  induction urls as [|target rest IH]; intros history outcome Hin.
  - destruct Hin.
  - destruct Hin as [<-|Hin]; [eauto | eapply IH; eauto].
Qed.

Lemma promise_all_fetched outcomes :
  forall (pending : list (Promise UrlResult)) urlResults,
  Forall2 fetched outcomes pending ->
  promise_all pending = Resolves urlResults ->
  Forall (fun u => In (Resolves (ur_result u)) outcomes) urlResults.
Proof.
  induction outcomes as [|o rest IH]; intros pending urlResults F E.
  - inversion F; subst. injection E as <-. constructor.
  - inversion F as [|? p ? pending' Hp Hrest]; subst.
    cbn [promise_all] in E. destruct p as [u|e]; [|discriminate].
    destruct (promise_all pending') as [values|e] eqn:E'; [|discriminate].
    injection E as <-. constructor.
    + destruct o as [response|e]; cbn in Hp.
      * destruct Hp as [target Hp]. injection Hp as ->. now left.
      * discriminate.
    + eapply Forall_impl; [|eapply IH; eauto]. intros u' Hu. now right.
Qed.

Lemma logs_for_refl a h : logs_for question a h h.
Proof.
  exists [], []. rewrite !app_nil_r.
  repeat split; auto; intros k Hk; destruct Hk.
Qed.

Lemma logs_for_trans a h1 h2 h3 :
  logs_for question a h1 h2 -> logs_for question a h2 h3 ->
  logs_for question a h1 h3.
Proof.
  intros (ks1 & m1 & K1 & T1 & F1 & S1) (ks2 & m2 & K2 & T2 & F2 & S2).
  exists (ks1 ++ ks2), (m1 ++ m2). rewrite K2, K1, T2, T1, <- !app_assoc.
  repeat split; auto.
  - apply Forall_app. now split.
  - intros k Hk. apply in_app_or in Hk. apply in_or_app.
    destruct Hk; [left | right]; auto.
Qed.

Lemma logs_for_calls a h h' more :
  allKeywords h' = allKeywords h ->
  trace h' = trace h ++ more ->
  Forall (caused_by question a) more ->
  logs_for question a h h'.
Proof.
  intros K T F. exists [], more. rewrite app_nil_r.
  repeat split; auto; intros k Hk; destruct Hk.
Qed.

Lemma search_tail_calls cq a queries h c h' :
  action a = "search" ->
  (searchResults <- search_each W queries [] ;;
   h0 <- get ;;
   modify (set_context
             (context h0 ++ [mkContextEntry (step h0) cq a
                                            (SearchResults searchResults)])))
    h = (c, h') ->
  logs_for question a h h' /\ totalTokens h' = totalTokens h.
Proof.
  intros Htag. unfold bind at 1. intros E.
  destruct (search_each W queries [] h) as [c1 h1] eqn:E1.
  pose proof (@search_each_frame W _ _ _ _ _ E1) as [(_ & _ & _ & _ & _ & T) _].
  pose proof (@search_each_calls a queries Htag _ _ _ _ E1) as L.
  destruct c1 as [results| | |]; [run_in E|..]; done_pair E; run; auto.
Qed.

Lemma truthy_string_some s :
  truthy_string s = true -> exists query, s = Some query.
Proof. destruct s; [eauto | discriminate]. Qed.

Lemma fetch_branch_effect cq a h c h' :
  fetch_branch W cq a h = (c, h') ->
  logs_for question a h h' /\ bills_for W h h'.
Proof.
  unfold fetch_branch.
  destruct (String.eqb (action a) "search") eqn:Hs;
    [destruct (truthy_string (searchQuery a)) eqn:Hq|]; cbn [andb].
  - (* search *)
    apply String.eqb_eq in Hs. apply truthy_string_some in Hq.
    destruct Hq as [query Hq]. rewrite Hq.
    unfold bind at 1, await at 1.
    destruct (rewriteQuery W (trace h) query) as [rewritten|e].
    + unfold bind at 1, get at 1. cbn [allKeywords log]. unfold bind at 1.
      intros E.
      assert (L0 : logs_for question a h (log (EvRewriteQuery query) h)).
      { apply logs_for_calls with (more := [EvRewriteQuery query]);
          [reflexivity | reflexivity |].
        constructor; [now split | constructor]. }
      destruct (allKeywords h) as [|k kws] eqn:Hk.
      * unfold ret at 1 in E. apply (@search_tail_calls cq a _ _ _ _ Hs) in E.
        destruct E as [L Tok]. split; [|left; exact Tok].
        eapply logs_for_trans; [exact L0 | exact L].
      * unfold await at 1 in E. cbn [trace] in E.
        destruct (dedupQueries W _ rewritten (k :: kws)) as [novel|e].
        -- apply (@search_tail_calls cq a _ _ _ _ Hs) in E.
           destruct E as [L Tok]. split; [|left; exact Tok].
           eapply logs_for_trans; [exact L0|].
           eapply logs_for_trans; [|exact L].
           apply logs_for_calls
             with (more := [EvDedupQueries rewritten (k :: kws)]);
             [reflexivity | reflexivity |].
           constructor; [now right | constructor].
        -- done_pair E. split; [|now left].
           eapply logs_for_trans; [exact L0|].
           apply logs_for_calls
             with (more := [EvDedupQueries rewritten (k :: kws)]);
             [reflexivity | reflexivity |].
           constructor; [now right | constructor].
    + intros E. done_pair E. split; [|now left].
      apply logs_for_calls with (more := [EvRewriteQuery query]);
        [reflexivity | reflexivity |].
      constructor; [now split | constructor].
  - destruct (String.eqb (action a) "deep dive") eqn:Hd.
    + apply String.eqb_eq in Hs, Hd. congruence.
    + intros E. done_pair E. split; [apply logs_for_refl | now left].
  - destruct (String.eqb (action a) "deep dive" && has_length (URLTargets a))
      eqn:Hd.
    + apply andb_prop in Hd. destruct Hd as [Hd Hlen].
      apply String.eqb_eq in Hd.
      destruct (URLTargets a) as [urls|] eqn:Hurls; [|discriminate].
      unfold bind at 1.
      destruct (start_reads_spec W urls h) as (pending & E1 & F).
      rewrite E1.
      assert (L : forall h1,
                 allKeywords h1 = allKeywords h ->
                 trace h1 = trace h ++ map EvReadUrl urls ->
                 logs_for question a h h1).
      { intros h1 K T. apply logs_for_calls with (more := map EvReadUrl urls);
          [exact K | exact T |].
        apply Forall_forall. intros e He. apply in_map_iff in He.
        destruct He as (target & <- & Hin). cbn. split; [exact Hd|].
        exists urls. now split. }
      destruct (promise_all pending) as [urlResults|e] eqn:Hall.
      * run. intros E. done_pair E. split; [now apply L|].
        right. exists urlResults. split; [reflexivity|].
        pose proof (promise_all_fetched F Hall) as Hres.
        eapply Forall_impl; [|exact Hres].
        intros u Hu. apply read_outcomes_in in Hu.
        destruct Hu as (history & target & Hu). eauto.
      * intros E. done_pair E. split; [now apply L | now left].
    + intros E. done_pair E. split; [apply logs_for_refl | now left].
Qed.

(** ** The calls of a whole turn *)

Lemma dispatch_effect cq a h c h' :
  dispatch W question cq a h = (c, h') ->
  logs_for question a h h' /\ bills_for W h h'.
Proof.
  unfold dispatch. unfold bind at 1.
  destruct (answer_branch W question cq a h) as [c1 h1] eqn:E1.
  apply answer_branch_calls in E1.
  destruct E1 as (Tok1 & K1 & more1 & T1 & F1).
  assert (L1 : logs_for question a h h1)
    by (now apply logs_for_calls with (more := more1)).
  destruct c1 as [[]| | |];
    try (intros E; done_pair E; split; [exact L1 | now left]).
  unfold bind at 1.
  destruct (reflect_branch W question a h1) as [c2 h2] eqn:E2.
  apply reflect_branch_calls in E2.
  destruct E2 as (_ & Tok2 & K2 & more2 & T2 & F2).
  assert (L2 : logs_for question a h h2).
  { eapply logs_for_trans; [exact L1|].
    now apply logs_for_calls with (more := more2). }
  destruct c2 as [[]| | |];
    try (intros E; done_pair E; split; [exact L2 | left; congruence]).
  unfold bind at 1.
  destruct (try_catch (fetch_branch W cq a) (fun _ => ret tt) h2)
    as [c3 h3] eqn:E3.
  assert (E3' : logs_for question a h2 h3 /\ bills_for W h2 h3).
  { unfold try_catch in E3.
    destruct (fetch_branch W cq a h2) as [c4 h4] eqn:E4.
    apply fetch_branch_effect in E4.
    destruct c4 as [[]| | |]; done_pair E3; exact E4. }
  destruct E3' as [L3 B3].
  assert (B : bills_for W h h3).
  { unfold bills_for in *. rewrite <- Tok1, <- Tok2. exact B3. }
  assert (L : logs_for question a h h3)
    by (eapply logs_for_trans; [exact L2 | exact L3]).
  destruct c3 as [[]| | |];
    try (intros E; done_pair E; split; [exact L | exact B]).
  unfold storeContext, modify. intros E. done_pair E. split.
  - eapply logs_for_trans; [exact L|].
    apply logs_for_calls
      with (more := [EvStoreContext (context h3) (allKeywords h3)
                                    (allQuestions h3)]);
      [reflexivity | reflexivity | constructor; [exact I | constructor]].
  - exact B.
Qed.

Lemma dispatch_returned cq a h v h' :
  dispatch W question cq a h = (Returned v, h') ->
  v = a /\ action a = "answer" /\ cq = question /\
  evaluateAnswer W (trace h) cq (answer a) = Resolves true /\
  context h' = context h ++ [mkContextEntry (step h) cq a NoResult] /\
  trace h' = trace h ++ [EvEvaluateAnswer cq (answer a)].
Proof.
  unfold dispatch. unfold bind at 1.
  destruct (answer_branch W question cq a h) as [c1 h1] eqn:E1.
  destruct c1 as [[]| | |]; try discriminate.
  - unfold bind at 1.
    destruct (reflect_branch W question a h1) as [c2 h2] eqn:E2.
    apply reflect_branch_calls in E2. destruct E2 as (S2 & _).
    destruct c2 as [[]| | |]; try discriminate; try contradiction.
    unfold bind at 1.
    destruct (try_catch (fetch_branch W cq a) (fun _ => ret tt) h2)
      as [c3 h3] eqn:E3.
    apply try_fetch_frame in E3. destruct E3 as (-> & _). discriminate.
  - intros E. injection E as <- <-. now apply answer_branch_returned.
Qed.

Lemma dispatch_stored cq a h h' :
  dispatch W question cq a h = (Normal tt, h') ->
  exists before,
    trace h' = before ++ [EvStoreContext (context h') (allKeywords h')
                                         (allQuestions h')].
Proof.
  unfold dispatch. unfold bind at 1.
  destruct (answer_branch W question cq a h) as [[[]| | |] h1];
    try discriminate.
  unfold bind at 1.
  destruct (reflect_branch W question a h1) as [[[]| | |] h2];
    try discriminate.
  unfold bind at 1.
  destruct (try_catch (fetch_branch W cq a) (fun _ => ret tt) h2)
    as [[[]| | |] h3]; try discriminate.
  unfold storeContext, modify. intros E. injection E as <-.
  exists (trace h3). reflexivity.
Qed.

(** ** Turns that leave the queue or the logs alone *)

Lemma dispatch_keeps_queue cq a h c h' :
  action a <> "reflect" ->
  dispatch W question cq a h = (c, h') ->
  gaps h' = gaps h /\ allQuestions h' = allQuestions h.
Proof.
  intros Htag. unfold dispatch. unfold bind at 1.
  destruct (answer_branch W question cq a h) as [c1 h1] eqn:E1.
  apply answer_branch_frame in E1. destruct E1 as (G1 & Q1 & _).
  destruct c1 as [[]| | |]; try (intros E; done_pair E; now split).
  unfold bind at 1. rewrite reflect_branch_skip by assumption.
  unfold bind at 1.
  destruct (try_catch (fetch_branch W cq a) (fun _ => ret tt) h1)
    as [c3 h3] eqn:E3.
  apply try_fetch_frame in E3. destruct E3 as (-> & G3 & Q3 & _).
  unfold storeContext, modify. intros E. done_pair E. run.
  split; congruence.
Qed.

Lemma dispatch_bad_attempts cq a h c h' :
  dispatch W question cq a h = (c, h') ->
  exists added, badContext h' = badContext h ++ added.
Proof.
  unfold dispatch. unfold bind at 1.
  destruct (answer_branch W question cq a h) as [c1 h1] eqn:E1.
  assert (B1 : exists added, badContext h1 = badContext h ++ added).
  { destruct (string_dec (action a) "answer") as [Htag|Htag].
    - destruct (string_dec cq question) as [Hq|Hq].
      + rewrite answer_branch_original in E1 by assumption. cbv zeta in E1.
        destruct (evaluateAnswer W (trace h) cq (answer a)) as [[|]|e];
          done_pair E1; run;
          solve [exists []; now rewrite app_nil_r | eexists; reflexivity].
      + rewrite answer_branch_sub_question in E1 by assumption.
        done_pair E1. run. exists []. now rewrite app_nil_r.
    - rewrite answer_branch_skip in E1 by assumption. done_pair E1.
      exists []. now rewrite app_nil_r. }
  destruct c1 as [[]| | |]; try (intros E; done_pair E; exact B1).
  unfold bind at 1.
  destruct (reflect_branch W question a h1) as [c2 h2] eqn:E2.
  apply reflect_branch_frame in E2. destruct E2 as (_ & B2 & _).
  destruct c2 as [[]| | |];
    try (intros E; done_pair E; rewrite B2; exact B1).
  unfold bind at 1.
  destruct (try_catch (fetch_branch W cq a) (fun _ => ret tt) h2)
    as [c3 h3] eqn:E3.
  apply try_fetch_frame in E3. destruct E3 as (-> & _ & _ & B3 & _).
  unfold storeContext, modify. intros E. done_pair E. run.
  rewrite B3, B2. exact B1.
Qed.

Lemma dispatch_idle cq a h :
  selects_no_branch a ->
  dispatch W question cq a h =
    (Normal tt,
     log (EvStoreContext (context h) (allKeywords h) (allQuestions h)) h).
Proof.
  intros (Ha & Hr & Hs & Hd). unfold dispatch. unfold bind at 1.
  rewrite answer_branch_skip by assumption. unfold bind at 1.
  assert (Er : reflect_branch W question a h = (Normal tt, h)).
  { destruct Hr as [Hr|Hr]; [now apply reflect_branch_skip|].
    unfold reflect_branch. now rewrite Hr. }
  rewrite Er. unfold bind at 1, try_catch.
  assert (Ef : fetch_branch W cq a h = (Normal tt, h)).
  { unfold fetch_branch.
    assert (Hs' : String.eqb (action a) "search"
                  && truthy_string (searchQuery a) = false).
    { destruct Hs as [Hs|Hs]; [apply String.eqb_neq in Hs; now rewrite Hs|].
      rewrite Hs. apply andb_false_r. }
    assert (Hd' : String.eqb (action a) "deep dive"
                  && has_length (URLTargets a) = false).
    { destruct Hd as [Hd|Hd]; [apply String.eqb_neq in Hd; now rewrite Hd|].
      rewrite Hd. apply andb_false_r. }
    rewrite Hs', Hd'. reflexivity. }
  rewrite Ef. reflexivity.
Qed.

(** ** Counting and billing *)

Lemma model_calls_app history more :
  model_calls (history ++ more) = model_calls history + model_calls more.
Proof.
  unfold model_calls. now rewrite filter_app, length_app.
Qed.

Lemma caused_by_quiet a more :
  Forall (caused_by question a) more -> model_calls more = 0.
Proof.
  induction 1 as [|e more He _ IH]; [reflexivity|].
  unfold model_calls in *. cbn [filter].
  destruct e; cbn in He; try contradiction; exact IH.
Qed.

Lemma sum_tokens_from (urlResults : list UrlResult) : forall start,
  fold_left (fun sum r => (sum + rr_tokens (ur_result r))%Z) urlResults start
  = (start + sum_tokens urlResults)%Z.
Proof.
  unfold sum_tokens.
  induction urlResults as [|u rest IH]; intros start; cbn [fold_left].
  - lia.
  - rewrite IH, (IH (0 + _)%Z). lia.
Qed.

Lemma sum_tokens_nonneg (urlResults : list UrlResult) :
  Forall (fun u => (0 <= rr_tokens (ur_result u))%Z) urlResults ->
  (0 <= sum_tokens urlResults)%Z.
Proof.
  induction 1 as [|u rest Hu _ IH]; [reflexivity|].
  unfold sum_tokens. cbn [fold_left]. rewrite sum_tokens_from. lia.
Qed.

Lemma loop_body_calls h c h' :
  loop_body W question h = (c, h') ->
  (exists ks more,
      allKeywords h' = allKeywords h ++ ks /\
      trace h' = decision_log W question h ++ more /\
      (forall k, In k ks -> In (EvSearch k) more) /\
      model_calls more = 0) /\
  (exists added, badContext h' = badContext h ++ added) /\
  (totalTokens h' = totalTokens h \/
   exists response,
     oracle_reply W question h = Resolves response /\
     bills_for W (decided W question response h) h').
Proof.
  rewrite loop_body_eq.
  destruct (oracle_reply W question h) as [response|e].
  - destruct (parsed response) as [a|].
    + intros E. pose proof (dispatch_bad_attempts _ _ _ E) as B.
      apply dispatch_effect in E.
      destruct E as [(ks & more & K & T & F & S0) Tok].
      split; [|split; [exact B | right; eauto]].
      exists ks, more. repeat split; auto.
      eapply caused_by_quiet; eauto.
    + intros E. done_pair E. split; [|split].
      * exists [], []. unfold decided, decision_log. run.
        rewrite !app_nil_r. repeat split; auto; intros k Hk; destruct Hk.
      * exists []. unfold decided. run. now rewrite app_nil_r.
      * right. exists response. split; [reflexivity | now left].
  - intros E. done_pair E. split; [|split].
    + exists [], []. unfold selected, decision_log. run.
      rewrite !app_nil_r, <- app_assoc.
      repeat split; auto; intros k Hk; destruct Hk.
    + exists []. unfold selected. run. now rewrite app_nil_r.
    + left. reflexivity.
Qed.

(** ** The search branch up to the first search *)

Lemma truthy_string_query query :
  query <> "" -> truthy_string (Some query) = true.
Proof.
  intros Hq. cbn. apply String.eqb_neq in Hq. now rewrite Hq.
Qed.

Lemma fetch_branch_search cq a h query rewritten queries :
  action a = "search" -> searchQuery a = Some query -> query <> "" ->
  rewriteQuery W (trace h) query = Resolves rewritten ->
  match allKeywords h with
  | [] => Resolves rewritten
  | _ :: _ =>
      dedupQueries W (trace h ++ [EvRewriteQuery query]) rewritten
                   (allKeywords h)
  end = Resolves queries ->
  fetch_branch W cq a h =
    (searchResults <- search_each W queries [] ;;
     h0 <- get ;;
     modify (set_context
               (context h0 ++ [mkContextEntry (step h0) cq a
                                              (SearchResults searchResults)])))
      (mkHeap (totalTokens h) (context h) (step h) (gaps h) (allQuestions h)
              (allKeywords h) (badContext h)
              (trace h ++ EvRewriteQuery query
                 :: match allKeywords h with
                    | [] => []
                    | _ :: _ => [EvDedupQueries rewritten (allKeywords h)]
                    end)).
Proof.
  intros Htag Hquery Hq Hrewritten Hqueries. unfold fetch_branch.
  apply String.eqb_eq in Htag. rewrite Htag, Hquery.
  rewrite (truthy_string_query Hq). cbn [andb].
  unfold bind at 1, await at 1. rewrite Hrewritten.
  unfold bind at 1, get at 1. unfold log.
  cbn [totalTokens context step gaps allQuestions allKeywords badContext
       trace].
  destruct (allKeywords h) as [|k kws].
  - injection Hqueries as <-. unfold bind at 1, ret at 1. reflexivity.
  - unfold bind at 1, await at 1. cbn [trace]. rewrite Hqueries.
    unfold log. cbn [totalTokens context step gaps allQuestions allKeywords
                     badContext trace].
    rewrite <- app_assoc. reflexivity.
Qed.

Lemma fetch_branch_search_blind cq a h query rewritten e :
  action a = "search" -> searchQuery a = Some query -> query <> "" ->
  rewriteQuery W (trace h) query = Resolves rewritten ->
  allKeywords h <> [] ->
  dedupQueries W (trace h ++ [EvRewriteQuery query]) rewritten (allKeywords h)
  = Rejects e ->
  fetch_branch W cq a h =
    (Thrown e,
     mkHeap (totalTokens h) (context h) (step h) (gaps h) (allQuestions h)
            (allKeywords h) (badContext h)
            (trace h ++ [EvRewriteQuery query;
                         EvDedupQueries rewritten (allKeywords h)])).
Proof.
  intros Htag Hquery Hq Hrewritten Hkws Hdedup. unfold fetch_branch.
  apply String.eqb_eq in Htag. rewrite Htag, Hquery.
  rewrite (truthy_string_query Hq). cbn [andb].
  unfold bind at 1, await at 1. rewrite Hrewritten.
  unfold bind at 1, get at 1. unfold log.
  cbn [totalTokens context step gaps allQuestions allKeywords badContext
       trace].
  destruct (allKeywords h) as [|k kws]; [congruence|].
  unfold bind at 1, await at 1. cbn [trace]. rewrite Hdedup.
  unfold log. cbn [totalTokens context step gaps allQuestions allKeywords
                   badContext trace].
  rewrite <- app_assoc. reflexivity.
Qed.

(** ** The questions a reflect turn adds *)

Lemma dispatch_reflect cq a h h' :
  action a = "reflect" ->
  dispatch W question cq a h = (Normal tt, h') ->
  gaps h' = gaps h \/
  exists questions novel,
    questionsToAnswer a = Some questions /\
    match allQuestions h with
    | [] => Resolves questions
    | _ :: _ => dedupQueries W (trace h) questions (allQuestions h)
    end = Resolves novel /\
    gaps h' = (gaps h ++ novel) ++ [question].
Proof.
  intros Htag. unfold dispatch. unfold bind at 1.
  rewrite answer_branch_skip by (rewrite Htag; discriminate).
  unfold bind at 1.
  destruct (reflect_branch W question a h) as [c2 h2] eqn:E2.
  assert (G2 : c2 = Normal tt ->
               gaps h2 = gaps h \/
               exists questions novel,
                 questionsToAnswer a = Some questions /\
                 match allQuestions h with
                 | [] => Resolves questions
                 | _ :: _ => dedupQueries W (trace h) questions (allQuestions h)
                 end = Resolves novel /\
                 gaps h2 = (gaps h ++ novel) ++ [question]).
  { intros ->. destruct (questionsToAnswer a) as [questions|] eqn:Hqs.
    - destruct (match allQuestions h with
                | [] => Resolves questions
                | _ :: _ => dedupQueries W (trace h) questions (allQuestions h)
                end) as [novel|e] eqn:Hnovel.
      + destruct (@reflect_branch_run W question a h questions novel
                    Htag Hqs Hnovel) as (h1 & E1 & G & _).
        rewrite E1 in E2. injection E2 as <-. right. eauto.
      + unfold reflect_branch in E2. apply String.eqb_eq in Htag.
        rewrite Hqs, Htag in E2. run_in E2.
        destruct (allQuestions h) as [|q0 known]; [discriminate|].
        run_in E2. rewrite Hnovel in E2. discriminate.
    - unfold reflect_branch in E2. rewrite Hqs in E2.
      injection E2 as <-. now left. }
  destruct c2 as [[]| | |]; try discriminate.
  unfold bind at 1, try_catch.
  rewrite fetch_branch_skip by (rewrite Htag; discriminate).
  unfold storeContext, modify. intros E. injection E as <-.
  unfold log. cbn [gaps]. now apply G2.
Qed.
End CallFacts.

(** * The loop, property by property *)

(** X1: a turn executes [return action] only for an answer to the original
    question that the evaluator has resolved to true; the action returned
    is the one the model gave, and its entry is the last of the context
    log. *)
Theorem returned_answer_was_judged_definitive W question h v h' :
  loop_body W question h = (Returned v, h') ->
  (exists response, oracle_says W question h response v) /\
  action v = "answer" /\
  current_question question h = question /\
  evaluator_reply W question h v = Resolves true /\
  context h' = context h ++ [answer_entry question h v].
Proof.
  rewrite loop_body_eq.
  destruct (oracle_reply W question h) as [response|e] eqn:Hreply;
    [|discriminate].
  destruct (parsed response) as [a|] eqn:Hparsed; [|discriminate].
  intros E. apply dispatch_returned in E.
  destruct E as (-> & Htag & Hq & Hverdict & C & _).
  split; [exists response; now split|].
  repeat split; auto.
Qed.

(** An instance of [returned_answer_was_judged_definitive]. *)
Lemma returned_answer_was_judged_definitive_witness :
  loop_body accepting sum_question (initial sum_question)
  = (Returned bare_answer,
     snd (loop_body accepting sum_question (initial sum_question))) /\
  evaluator_reply accepting sum_question (initial sum_question) bare_answer
  = Resolves true.
Proof.
  assert (E : loop_body accepting sum_question (initial sum_question)
              = (Returned bare_answer,
                 snd (loop_body accepting sum_question (initial sum_question))))
    by (vm_compute; reflexivity).
  split; [exact E|].
  exact (proj1 (proj2 (proj2 (proj2
           (@returned_answer_was_judged_definitive _ _ _ _ _ E))))).
Defined.

(** X2: whenever the loop returns an action, the action is an answer, the
    last call in the log is its evaluation for the original question (no
    snapshot is stored after it), and the last entry of the context log
    is the entry of that answer. *)
Theorem run_returns_only_a_judged_answer W fuel question tokenBudget :
  forall h v h',
    while_loop W fuel question tokenBudget h = (Returned v, h') ->
    action v = "answer" /\
    (exists before,
        trace h' = before ++ [EvEvaluateAnswer question (answer v)]) /\
    (exists earlier e,
        context h' = earlier ++ [e] /\
        ce_action e = v /\ ce_question e = question).
Proof.
  induction fuel as [|fuel IH]; intros h v h' E; cbn [while_loop] in E;
    destruct (totalTokens h <? tokenBudget)%Z; try discriminate.
  unfold bind in E.
  destruct (loop_body W question h) as [[[]| | |] h1] eqn:E1;
    try discriminate.
  - eapply IH; eauto.
  - injection E as <- <-. rewrite loop_body_eq in E1.
    destruct (oracle_reply W question h) as [response|e]; [|discriminate].
    destruct (parsed response) as [a|]; [|discriminate].
    apply dispatch_returned in E1.
    destruct E1 as (-> & Htag & Hq & _ & C & T).
    split; [exact Htag|]. split.
    + eexists. rewrite T, Hq. reflexivity.
    + eexists. eexists. split; [exact C|]. split; [reflexivity | exact Hq].
Qed.

(** An instance of [run_returns_only_a_judged_answer]. *)
Lemma run_returns_only_a_judged_answer_witness :
  while_loop accepting 3 sum_question default_tokenBudget
             (initial sum_question)
  = (Returned bare_answer,
     snd (while_loop accepting 3 sum_question default_tokenBudget
                     (initial sum_question))) /\
  action bare_answer = "answer".
Proof.
  assert (E : while_loop accepting 3 sum_question default_tokenBudget
                         (initial sum_question)
              = (Returned bare_answer,
                 snd (while_loop accepting 3 sum_question default_tokenBudget
                                 (initial sum_question))))
    by (vm_compute; reflexivity).
  split; [exact E|].
  exact (proj1 (@run_returns_only_a_judged_answer accepting 3 sum_question
                  default_tokenBudget (initial sum_question) _ _ E)).
Defined.

(** X3: when the loop ends without a value, the token count has reached
    the budget. *)
Theorem run_without_value_has_spent_budget W fuel question tokenBudget :
  forall h h',
    while_loop W fuel question tokenBudget h = (Normal tt, h') ->
    (tokenBudget <= totalTokens h')%Z.
Proof.
  induction fuel as [|fuel IH]; intros h h' E; cbn [while_loop] in E;
    destruct (totalTokens h <? tokenBudget)%Z eqn:Hb;
    try discriminate;
    try (injection E as <-; now apply Z.ltb_ge).
  unfold bind in E.
  destruct (loop_body W question h) as [[[]| | |] h1]; try discriminate.
  eapply IH; eauto.
Qed.

(** An instance of [run_without_value_has_spent_budget]. *)
Lemma run_without_value_has_spent_budget_witness :
  while_loop rejecting 2 sum_question 15 (initial sum_question)
  = (Normal tt,
     snd (while_loop rejecting 2 sum_question 15 (initial sum_question))) /\
  (15 <= totalTokens
           (snd (while_loop rejecting 2 sum_question 15
                            (initial sum_question))))%Z.
Proof.
  assert (E : while_loop rejecting 2 sum_question 15 (initial sum_question)
              = (Normal tt,
                 snd (while_loop rejecting 2 sum_question 15
                                 (initial sum_question))))
    by (vm_compute; reflexivity).
  split; [exact E|].
  exact (@run_without_value_has_spent_budget rejecting 2 sum_question 15%Z
           (initial sum_question) _ E).
Defined.

(** The heaps after the first turn of some runs can start a turn. *)
Lemma first_reflection_reachable :
  reachable exploring "why" default_tokenBudget after_reflection.
Proof.
  apply reach_turn with (h := initial "why").
  - apply reach_initial.
  - reflexivity.
  - vm_compute. reflexivity.
Qed.

Lemma first_search_reachable :
  reachable (searching "" true) "who founded jina ai" default_tokenBudget
            after_search.
Proof.
  apply reach_turn with (h := initial "who founded jina ai").
  - apply reach_initial.
  - reflexivity.
  - vm_compute. reflexivity.
Qed.

(** X4: an answer to a question other than the original one is pushed on
    the context log and the turn completes; the evaluator is not called,
    the bad-attempt log is unchanged and the head of the queue is gone. *)
Theorem sub_question_answer_is_not_evaluated W question h response a :
  oracle_says W question h response a ->
  action a = "answer" ->
  current_question question h <> question ->
  exists h',
    loop_body W question h = (Normal tt, h') /\
    context h' = context h ++ [answer_entry question h a] /\
    badContext h' = badContext h /\
    gaps h' = tl (gaps h) /\
    trace h' = decision_log W question h
               ++ [EvStoreContext (context h') (allKeywords h)
                                  (allQuestions h)].
Proof.
  intros Hsays Htag Hq.
  rewrite (loop_body_says Hsays). unfold dispatch. unfold bind at 1.
  rewrite answer_branch_sub_question by assumption.
  unfold bind at 1. rewrite reflect_branch_skip by (rewrite Htag; discriminate).
  unfold bind at 1, try_catch.
  rewrite fetch_branch_skip by (rewrite Htag; discriminate).
  eexists. split; [reflexivity|]. run. unfold decided. run.
  repeat split.
Qed.

(** An instance of [sub_question_answer_is_not_evaluated]. *)
Lemma sub_question_answer_is_not_evaluated_witness :
  (oracle_says exploring "why" after_reflection sum_reply bare_answer /\
   action bare_answer = "answer" /\
   current_question "why" after_reflection <> "why") /\
  exists h',
    loop_body exploring "why" after_reflection = (Normal tt, h') /\
    badContext h' = badContext after_reflection /\
    gaps h' = ["Q2"; "why"].
Proof.
  assert (Hs : oracle_says exploring "why" after_reflection sum_reply
                           bare_answer)
    by (split; vm_compute; reflexivity).
  assert (Hq : current_question "why" after_reflection <> "why")
    by (vm_compute; discriminate).
  split; [repeat split; solve [assumption | reflexivity | apply Hs]|].
  destruct (@sub_question_answer_is_not_evaluated exploring "why"
              after_reflection sum_reply bare_answer Hs eq_refl Hq)
    as (h' & E & _ & B & G & _).
  exists h'. repeat split; [exact E | exact B |].
  rewrite G. vm_compute. reflexivity.
Defined.



(** X6: an action that selects no branch (an unknown tag, a reflect
    without questions, a search without query, a deep dive without URLs)
    is no error: the turn completes, the tokens of the call are counted,
    the snapshot is stored, and the question popped for the turn is not
    put back. *)
Theorem unusable_action_is_skipped W question h response a :
  oracle_says W question h response a ->
  selects_no_branch a ->
  exists h',
    loop_body W question h = (Normal tt, h') /\
    context h' = context h /\ badContext h' = badContext h /\
    allQuestions h' = allQuestions h /\ allKeywords h' = allKeywords h /\
    gaps h' = tl (gaps h) /\
    totalTokens h' = (totalTokens h + token_count response)%Z /\
    trace h' = decision_log W question h
               ++ [EvStoreContext (context h) (allKeywords h)
                                  (allQuestions h)].
Proof.
  intros Hsays Hidle. rewrite (loop_body_says Hsays).
  rewrite dispatch_idle by assumption.
  eexists. split; [reflexivity|]. unfold decided. run. repeat split.
Qed.

(** An instance of [unusable_action_is_skipped]. *)
Lemma unusable_action_is_skipped_witness :
  (oracle_says idling sum_question (initial sum_question)
               (mkResponse (Some 10%Z) (Some bare_search)) bare_search /\
   selects_no_branch bare_search) /\
  exists h',
    loop_body idling sum_question (initial sum_question) = (Normal tt, h') /\
    context h' = [] /\ gaps h' = [] /\ totalTokens h' = 10%Z.
Proof.
  assert (Hs : oracle_says idling sum_question (initial sum_question)
                 (mkResponse (Some 10%Z) (Some bare_search)) bare_search)
    by (split; vm_compute; reflexivity).
  assert (Hi : selects_no_branch bare_search).
  { split; [discriminate|]. split; [now right|].
    split; [now right | left; discriminate]. }
  split; [split; assumption|].
  destruct (@unusable_action_is_skipped idling sum_question
              (initial sum_question) _ bare_search Hs Hi)
    as (h' & E & C & _ & _ & _ & G & T & _).
  exists h'. repeat split; assumption.
Defined.

(** X7: whatever happens in a turn, the asked questions, the keywords and
    the bad-attempt log are only appended to. *)
Theorem logs_only_grow W question h :
  exists asked keywords rejected,
    allQuestions (snd (loop_body W question h)) = allQuestions h ++ asked /\
    allKeywords (snd (loop_body W question h)) = allKeywords h ++ keywords /\
    badContext (snd (loop_body W question h)) = badContext h ++ rejected.
Proof.
  destruct (loop_body W question h) as [c h'] eqn:E. cbn [snd].
  pose proof (@loop_body_frame W question h c h' E) as (_ & _ & G & _).
  apply loop_body_calls in E.
  destruct E as ((ks & more & K & _) & (added & B) & _).
  destruct G as [[_ Q]|[novel [_ Q]]].
  - exists [], ks, added. rewrite app_nil_r. auto.
  - exists novel, ks, added. auto.
Qed.

(** X8: whenever a turn starts, every question of the gap queue is among
    the asked questions, whose first is the original question. *)
Theorem pending_questions_are_registered W question tokenBudget h :
  reachable W question tokenBudget h ->
  incl (gaps h) (allQuestions h) /\
  hd_error (allQuestions h) = Some question.
Proof.
  induction 1 as [|h h' Hr [IHg IHq] _ E].
  - split; [apply incl_refl | reflexivity].
  - apply loop_body_frame in E.
    destruct E as (_ & _ & [[G Q]|[novel [G Q]]] & _); rewrite G, Q.
    + split; [|exact IHq]. intros x Hx. apply IHg.
      destruct (gaps h); [destruct Hx | now right].
    + split.
      * intros x Hx. apply in_app_or in Hx. destruct Hx as [Hx|[<-|[]]].
        -- apply in_app_or in Hx. apply in_or_app.
           destruct Hx as [Hx|Hx]; [left | now right].
           apply IHg. destruct (gaps h); [destruct Hx | now right].
        -- apply in_or_app. left.
           destruct (allQuestions h); [discriminate|].
           injection IHq as ->. now left.
      * destruct (allQuestions h); [discriminate | exact IHq].
Qed.

(** An instance of [pending_questions_are_registered]. *)
Lemma pending_questions_are_registered_witness :
  reachable exploring "why" default_tokenBudget after_reflection /\
  incl (gaps after_reflection) (allQuestions after_reflection) /\
  hd_error (allQuestions after_reflection) = Some "why".
Proof.
  split; [exact first_reflection_reachable|].
  exact (@pending_questions_are_registered exploring "why"
           default_tokenBudget after_reflection first_reflection_reachable).
Defined.

(** X9: whenever a turn starts, every keyword of the registry was sent to
    the search provider earlier in the run. *)
Theorem keywords_were_searched W question tokenBudget h :
  reachable W question tokenBudget h ->
  forall k, In k (allKeywords h) -> In (EvSearch k) (trace h).
Proof.
  induction 1 as [|h h' Hr IH _ E]; intros k Hk.
  - destruct Hk.
  - apply loop_body_calls in E.
    destruct E as ((ks & more & K & T & S0 & _) & _).
    rewrite K in Hk. rewrite T. unfold decision_log.
    apply in_app_or in Hk. apply in_or_app.
    destruct Hk as [Hk|Hk]; [left; apply in_or_app; left; auto | right; auto].
Qed.

(** An instance of [keywords_were_searched]. *)
Lemma keywords_were_searched_witness :
  reachable (searching "" true) "who founded jina ai" default_tokenBudget
            after_search /\
  allKeywords after_search = ["jina ai"; "jina ai founder"] /\
  In (EvSearch "jina ai founder") (trace after_search).
Proof.
  split; [exact first_search_reachable|].
  split; [vm_compute; reflexivity|].
  apply (@keywords_were_searched (searching "" true) "who founded jina ai"
           default_tokenBudget after_search first_search_reachable).
  vm_compute. auto.
Defined.

(** The scripted model and the full reader report positive counts. *)
Lemma reading_bills_no_negative : bills_no_negative reading.
Proof.
  split.
  - intros history prompt schema response. unfold reading, scripted.
    cbn [generateContent].
    destruct (nth_error _ _); [|discriminate].
    intros E. injection E as <-. cbn. lia.
  - intros history target response. unfold reading, scripted, full_reader.
    cbn [readUrl]. intros E. injection E as <-. cbn. lia.
Qed.

(** X10: when neither the model nor the page reader reports a negative
    token count, the token count does not decrease in a turn, however the
    turn ends. *)
Theorem tokens_never_decrease W question h :
  bills_no_negative W ->
  (totalTokens h <= totalTokens (snd (loop_body W question h)))%Z.
Proof.
  intros [Hmodel Hreader].
  destruct (loop_body W question h) as [c h'] eqn:E. cbn [snd].
  apply loop_body_calls in E. destruct E as (_ & _ & [->|Hbill]); [lia|].
  destruct Hbill as (response & Hreply & Hbill).
  apply Hmodel in Hreply.
  assert (Hd : totalTokens (decided W question response h)
               = (totalTokens h + token_count response)%Z) by reflexivity.
  destruct Hbill as [->|(urlResults & -> & Hpages)]; rewrite Hd; [lia|].
  assert (0 <= sum_tokens urlResults)%Z; [|lia].
  apply sum_tokens_nonneg. eapply Forall_impl; [|exact Hpages].
  intros u (history & target & Hu). eapply Hreader; eauto.
Qed.

(** An instance of [tokens_never_decrease]. *)
Lemma tokens_never_decrease_witness :
  bills_no_negative reading /\
  (totalTokens (initial page_question)
   <= totalTokens (snd (loop_body reading page_question
                                  (initial page_question))))%Z.
Proof.
  split; [exact reading_bills_no_negative|].
  exact (@tokens_never_decrease reading page_question
           (initial page_question) reading_bills_no_negative).
Defined.

(** X11: after the model's reply, a turn makes only the calls its action
    asks for: the evaluator for an answer, about the original question and
    the action's answer; the deduplicator for a reflect or a search; the
    rewriter, with the action's query, the search provider and the
    cool-down for a search; the reader, on the action's URLs, for a deep
    dive; and the snapshot.  The model is not called a second time. *)
Theorem calls_follow_the_action W question h response a :
  oracle_says W question h response a ->
  exists more,
    trace (snd (loop_body W question h)) = decision_log W question h ++ more /\
    Forall (caused_by question a) more.
Proof.
  intros Hsays. rewrite (loop_body_says Hsays).
  destruct (dispatch W question (current_question question h) a
                     (decided W question response h)) as [c h'] eqn:E.
  apply dispatch_effect in E. destruct E as [(ks & more & _ & T & F & _) _].
  exists more. split; [exact T | exact F].
Qed.

(** An instance of [calls_follow_the_action]. *)
Lemma calls_follow_the_action_witness :
  oracle_says (searching "" true) "who founded jina ai"
              (initial "who founded jina ai") search_reply
              (search_for "jina ai") /\
  exists more,
    trace after_search
    = decision_log (searching "" true) "who founded jina ai"
                   (initial "who founded jina ai") ++ more /\
    Forall (caused_by "who founded jina ai" (search_for "jina ai")) more.
Proof.
  assert (Hs : oracle_says (searching "" true) "who founded jina ai"
                 (initial "who founded jina ai") search_reply
                 (search_for "jina ai"))
    by (split; vm_compute; reflexivity).
  split; [exact Hs|].
  exact (@calls_follow_the_action (searching "" true) "who founded jina ai"
           (initial "who founded jina ai") search_reply
           (search_for "jina ai") Hs).
Defined.

(** X12: every turn calls the model exactly once and counts one step,
    however it ends. *)
Theorem every_turn_calls_the_model_once W question h :
  model_calls (trace (snd (loop_body W question h)))
  = S (model_calls (trace h)) /\
  step (snd (loop_body W question h)) = S (step h).
Proof.
  destruct (loop_body W question h) as [c h'] eqn:E. cbn [snd].
  pose proof (@loop_body_frame W question h c h' E) as (S1 & _).
  apply loop_body_calls in E.
  destruct E as ((ks & more & _ & T & _ & Hquiet) & _).
  split; [|exact S1].
  rewrite T. unfold decision_log, oracle_call.
  rewrite !model_calls_app, Hquiet. unfold model_calls. cbn. lia.
Qed.

(** X13: when the rewriter, the deduplicator and every search resolve, a
    search turn sends exactly the surviving queries to the provider, in
    order, each followed by the cool-down; it appends them to the keyword
    registry and pushes one entry with the results of all of them. *)
Theorem search_records_every_query
        W question h response a query rewritten queries hits :
  oracle_says W question h response a ->
  action a = "search" -> searchQuery a = Some query -> query <> "" ->
  rewriter_reply W question h query = Resolves rewritten ->
  surviving_keywords W question h query rewritten = Resolves queries ->
  search_outcomes W (search_log W question h query rewritten) queries
  = map (@Resolves _) hits ->
  exists h',
    loop_body W question h = (Normal tt, h') /\
    context h' =
      context h ++ [mkContextEntry (S (step h)) (current_question question h)
                                   a (SearchResults
                                        (search_results queries hits))] /\
    allKeywords h' = allKeywords h ++ queries /\
    trace h' = search_log W question h query rewritten
               ++ search_calls queries
               ++ [EvStoreContext (context h') (allKeywords h')
                                  (allQuestions h)].
Proof.
  intros Hsays Htag Hquery Hq Hrewritten Hqueries Hhits.
  rewrite (loop_body_says Hsays). unfold dispatch. unfold bind at 1.
  rewrite answer_branch_skip by (rewrite Htag; discriminate).
  unfold bind at 1.
  rewrite reflect_branch_skip by (rewrite Htag; discriminate).
  unfold bind at 1, try_catch.
  rewrite (@fetch_branch_search W (current_question question h) a
             (decided W question response h) query rewritten queries
             Htag Hquery Hq Hrewritten Hqueries).
  unfold bind at 1.
  rewrite (@search_each_resolved W queries hits); [|exact Hhits].
  run. eexists. split; [reflexivity|]. run. unfold decided. run.
  repeat split. unfold search_log, decision_log.
  now rewrite <- !app_assoc.
Qed.

(** An instance of [search_records_every_query]. *)
Lemma search_records_every_query_witness :
  (oracle_says (searching "" true) "who founded jina ai" with_keyword
               search_reply (search_for "jina ai") /\
   action (search_for "jina ai") = "search" /\
   searchQuery (search_for "jina ai") = Some "jina ai" /\
   "jina ai" <> "" /\
   rewriter_reply (searching "" true) "who founded jina ai" with_keyword
                  "jina ai"
   = Resolves ["jina ai"; "jina ai founder"] /\
   surviving_keywords (searching "" true) "who founded jina ai" with_keyword
                      "jina ai" ["jina ai"; "jina ai founder"]
   = Resolves ["jina ai founder"] /\
   search_outcomes (searching "" true)
     (search_log (searching "" true) "who founded jina ai" with_keyword
                 "jina ai" ["jina ai"; "jina ai founder"])
     ["jina ai founder"]
   = map (@Resolves _) [[jina_hit]]) /\
  exists h',
    loop_body (searching "" true) "who founded jina ai" with_keyword
    = (Normal tt, h') /\
    allKeywords h' = ["jina ai"; "jina ai founder"].
Proof.
  assert (Hs : oracle_says (searching "" true) "who founded jina ai"
                 with_keyword search_reply (search_for "jina ai"))
    by (split; vm_compute; reflexivity).
  assert (Hq : "jina ai" <> "") by discriminate.
  split; [repeat split; solve [assumption | reflexivity | apply Hs]|].
  destruct (@search_records_every_query (searching "" true)
              "who founded jina ai" with_keyword search_reply
              (search_for "jina ai") "jina ai"
              ["jina ai"; "jina ai founder"] ["jina ai founder"] [[jina_hit]]
              Hs eq_refl eq_refl Hq eq_refl eq_refl eq_refl)
    as (h' & E & _ & K & _).
  exists h'. split; [exact E | exact K].
Defined.

(** X14: when a search fails after some have resolved, the error is
    caught and the turn completes without a context entry, but the
    queries searched before the failure stay in the keyword registry. *)
Theorem failed_search_keeps_earlier_keywords
        W question h response a query rewritten queries hits e later :
  oracle_says W question h response a ->
  action a = "search" -> searchQuery a = Some query -> query <> "" ->
  rewriter_reply W question h query = Resolves rewritten ->
  surviving_keywords W question h query rewritten = Resolves queries ->
  search_outcomes W (search_log W question h query rewritten) queries
  = map (@Resolves _) hits ++ Rejects e :: later ->
  exists h',
    loop_body W question h = (Normal tt, h') /\
    context h' = context h /\
    allKeywords h' = allKeywords h ++ firstn (length hits) queries.
Proof.
  intros Hsays Htag Hquery Hq Hrewritten Hqueries Hhits.
  rewrite (loop_body_says Hsays). unfold dispatch. unfold bind at 1.
  rewrite answer_branch_skip by (rewrite Htag; discriminate).
  unfold bind at 1.
  rewrite reflect_branch_skip by (rewrite Htag; discriminate).
  unfold bind at 1, try_catch.
  rewrite (@fetch_branch_search W (current_question question h) a
             (decided W question response h) query rewritten queries
             Htag Hquery Hq Hrewritten Hqueries).
  unfold bind at 1.
  edestruct (@search_each_rejected W queries hits e later [])
    as (h1 & E1 & K & C & _); [|rewrite E1].
  - cbn [trace]. exact Hhits.
  - unfold ret, storeContext, modify. eexists. split; [reflexivity|].
    unfold log. cbn [context allKeywords]. split; [exact C | exact K].
Qed.

(** An instance of [failed_search_keeps_earlier_keywords]. *)
Lemma failed_search_keeps_earlier_keywords_witness :
  (oracle_says (searching "jina ai founder" true) "who founded jina ai"
               (initial "who founded jina ai") search_reply
               (search_for "jina ai") /\
   search_outcomes (searching "jina ai founder" true)
     (search_log (searching "jina ai founder" true) "who founded jina ai"
                 (initial "who founded jina ai") "jina ai"
                 ["jina ai"; "jina ai founder"])
     ["jina ai"; "jina ai founder"]
   = map (@Resolves _) [[jina_hit]] ++ Rejects "search failed" :: []) /\
  exists h',
    loop_body (searching "jina ai founder" true) "who founded jina ai"
              (initial "who founded jina ai")
    = (Normal tt, h') /\
    context h' = [] /\
    allKeywords h' = ["jina ai"].
Proof.
  assert (Hs : oracle_says (searching "jina ai founder" true)
                 "who founded jina ai" (initial "who founded jina ai")
                 search_reply (search_for "jina ai"))
    by (split; vm_compute; reflexivity).
  assert (Hq : "jina ai" <> "") by discriminate.
  split; [split; [exact Hs | reflexivity]|].
  exact (@failed_search_keeps_earlier_keywords
           (searching "jina ai founder" true) "who founded jina ai"
           (initial "who founded jina ai") search_reply
           (search_for "jina ai") "jina ai"
           ["jina ai"; "jina ai founder"] ["jina ai"; "jina ai founder"]
           [[jina_hit]] "search failed" []
           Hs eq_refl eq_refl Hq eq_refl eq_refl eq_refl).
Defined.

(** X15: when every page of a deep dive is read, the turn pushes one
    entry with the pages in the order of the URLs and adds the reader's
    tokens of all of them to the token count. *)
Theorem deep_dive_records_every_page W question h response a urls responses :
  oracle_says W question h response a ->
  action a = "deep dive" ->
  URLTargets a = Some urls -> urls <> [] ->
  read_outcomes W (decision_log W question h) urls
  = map (@Resolves _) responses ->
  exists h',
    loop_body W question h = (Normal tt, h') /\
    context h' =
      context h ++ [mkContextEntry (S (step h)) (current_question question h)
                                   a (UrlResults
                                        (url_results urls responses))] /\
    totalTokens h' =
      (totalTokens h + token_count response
       + sum_tokens (url_results urls responses))%Z /\
    trace h' = decision_log W question h ++ map EvReadUrl urls
               ++ [EvStoreContext (context h') (allKeywords h)
                                  (allQuestions h)].
Proof.
  intros Hsays Htag Hurls Hne Hread.
  rewrite (loop_body_says Hsays). unfold dispatch. unfold bind at 1.
  rewrite answer_branch_skip by (rewrite Htag; discriminate).
  unfold bind at 1.
  rewrite reflect_branch_skip by (rewrite Htag; discriminate).
  unfold bind at 1, try_catch, fetch_branch.
  rewrite Htag, Hurls.
  assert (Hlen : has_length (Some urls) = true)
    by (destruct urls; [congruence | reflexivity]).
  rewrite Hlen. cbn [String.eqb Ascii.eqb Bool.eqb andb].
  unfold bind at 1.
  rewrite (@start_reads_resolved W urls responses); [|exact Hread].
  rewrite promise_all_resolved. run. eexists. split; [reflexivity|].
  unfold decided. run. repeat split.
  unfold decision_log. now rewrite <- !app_assoc.
Qed.

(** An instance of [deep_dive_records_every_page]. *)
Lemma deep_dive_records_every_page_witness :
  (oracle_says reading page_question (initial page_question)
               (mkResponse (Some 10%Z) (Some (deep_dive pages)))
               (deep_dive pages) /\
   pages <> [] /\
   read_outcomes reading
                 (decision_log reading page_question (initial page_question))
                 pages
   = map (@Resolves _) [mkReadResponse "http://a.example" 7;
                        mkReadResponse "http://b.example" 7]) /\
  exists h',
    loop_body reading page_question (initial page_question)
    = (Normal tt, h') /\
    totalTokens h' = 24%Z.
Proof.
  assert (Hs : oracle_says reading page_question (initial page_question)
                 (mkResponse (Some 10%Z) (Some (deep_dive pages)))
                 (deep_dive pages))
    by (split; vm_compute; reflexivity).
  assert (Hne : pages <> []) by discriminate.
  split; [split; [exact Hs | split; [exact Hne | reflexivity]]|].
  destruct (@deep_dive_records_every_page reading page_question
              (initial page_question) _ (deep_dive pages) pages
              [mkReadResponse "http://a.example" 7;
               mkReadResponse "http://b.example" 7]
              Hs eq_refl eq_refl Hne eq_refl)
    as (h' & E & _ & T & _).
  exists h'. split; [exact E | exact T].
Defined.

(** X16: a failure of the deduplicator in a reflect turn is not caught:
    the turn and the loop end with the error, nothing has been pushed on
    the gap queue. *)
Theorem reflect_dedup_failure_ends_run W question h response a questions e :
  oracle_says W question h response a ->
  action a = "reflect" ->
  questionsToAnswer a = Some questions ->
  surviving W question h questions = Rejects e ->
  exists h',
    loop_body W question h = (Thrown e, h') /\
    gaps h' = tl (gaps h) /\ allQuestions h' = allQuestions h /\
    context h' = context h /\
    forall fuel tokenBudget,
      (totalTokens h < tokenBudget)%Z ->
      while_loop W (S fuel) question tokenBudget h = (Thrown e, h').
Proof.
  intros Hsays Htag Hqs Hfail.
  assert (E : exists h',
             loop_body W question h = (Thrown e, h') /\
             gaps h' = tl (gaps h) /\ allQuestions h' = allQuestions h /\
             context h' = context h).
  { rewrite (loop_body_says Hsays). unfold dispatch. unfold bind at 1.
    rewrite answer_branch_skip by (rewrite Htag; discriminate).
    unfold bind at 1, reflect_branch.
    apply String.eqb_eq in Htag. rewrite Hqs, Htag.
    unfold when. unfold bind at 1, get at 1. unfold bind at 1.
    unfold surviving, decision_log in Hfail.
    unfold decided at 1. cbn [allQuestions].
    destruct (allQuestions h) as [|q0 known] eqn:Hknown; [discriminate|].
    unfold await at 1. unfold decided at 1 2. cbn [trace allQuestions].
    rewrite Hknown, Hfail. eexists. split; [reflexivity|].
    unfold log, decided. cbn [gaps allQuestions context]. auto. }
  destruct E as (h' & E & G & Q & C). exists h'. repeat split; auto.
  intros fuel tokenBudget Hlt. rewrite while_loop_turn by assumption.
  unfold bind. rewrite E. reflexivity.
Qed.

(** An instance of [reflect_dedup_failure_ends_run]. *)
Lemma reflect_dedup_failure_ends_run_witness :
  (oracle_says reflecting_blind "why" (initial "why")
               (mkResponse (Some 10%Z) (Some (reflect_on ["Q1"; "Q2"])))
               (reflect_on ["Q1"; "Q2"]) /\
   surviving reflecting_blind "why" (initial "why") ["Q1"; "Q2"]
   = Rejects "dedup failed") /\
  exists h',
    loop_body reflecting_blind "why" (initial "why")
    = (Thrown "dedup failed", h') /\
    gaps h' = [].
Proof.
  assert (Hs : oracle_says reflecting_blind "why" (initial "why")
                 (mkResponse (Some 10%Z) (Some (reflect_on ["Q1"; "Q2"])))
                 (reflect_on ["Q1"; "Q2"]))
    by (split; vm_compute; reflexivity).
  split; [split; [exact Hs | reflexivity]|].
  destruct (@reflect_dedup_failure_ends_run reflecting_blind "why"
              (initial "why") _ (reflect_on ["Q1"; "Q2"]) ["Q1"; "Q2"]
              "dedup failed" Hs eq_refl eq_refl eq_refl)
    as (h' & E & G & _).
  exists h'. split; [exact E | exact G].
Defined.

(** X17: a failure of the deduplicator in a search turn is caught: the
    turn completes, nothing is searched, and no entry or keyword is
    recorded. *)
Theorem search_dedup_failure_is_caught
        W question h response a query rewritten e :
  oracle_says W question h response a ->
  action a = "search" -> searchQuery a = Some query -> query <> "" ->
  rewriter_reply W question h query = Resolves rewritten ->
  surviving_keywords W question h query rewritten = Rejects e ->
  exists h',
    loop_body W question h = (Normal tt, h') /\
    context h' = context h /\ allKeywords h' = allKeywords h /\
    trace h' = decision_log W question h
               ++ [EvRewriteQuery query;
                   EvDedupQueries rewritten (allKeywords h);
                   EvStoreContext (context h) (allKeywords h)
                                  (allQuestions h)].
Proof.
  intros Hsays Htag Hquery Hq Hrewritten Hfail.
  assert (Hkws : allKeywords h <> []).
  { unfold surviving_keywords in Hfail.
    destruct (allKeywords h); [discriminate | discriminate]. }
  assert (Hdedup : dedupQueries W
                     (decision_log W question h ++ [EvRewriteQuery query])
                     rewritten (allKeywords h) = Rejects e).
  { unfold surviving_keywords in Hfail.
    destruct (allKeywords h); [congruence | exact Hfail]. }
  rewrite (loop_body_says Hsays). unfold dispatch. unfold bind at 1.
  rewrite answer_branch_skip by (rewrite Htag; discriminate).
  unfold bind at 1.
  rewrite reflect_branch_skip by (rewrite Htag; discriminate).
  unfold bind at 1, try_catch.
  rewrite (@fetch_branch_search_blind W (current_question question h) a
             (decided W question response h) query rewritten e
             Htag Hquery Hq Hrewritten Hkws Hdedup).
  unfold ret, storeContext, modify. eexists. split; [reflexivity|].
  unfold log, decided, decision_log.
  cbn [context allKeywords allQuestions trace].
  repeat split. now rewrite <- !app_assoc.
Qed.

(** An instance of [search_dedup_failure_is_caught]. *)
Lemma search_dedup_failure_is_caught_witness :
  (oracle_says (searching "" false) "who founded jina ai" with_keyword
               search_reply (search_for "jina ai") /\
   surviving_keywords (searching "" false) "who founded jina ai"
                      with_keyword "jina ai" ["jina ai"; "jina ai founder"]
   = Rejects "dedup failed") /\
  exists h',
    loop_body (searching "" false) "who founded jina ai" with_keyword
    = (Normal tt, h') /\
    context h' = [] /\ allKeywords h' = ["jina ai"].
Proof.
  assert (Hs : oracle_says (searching "" false) "who founded jina ai"
                 with_keyword search_reply (search_for "jina ai"))
    by (split; vm_compute; reflexivity).
  assert (Hq : "jina ai" <> "") by discriminate.
  split; [split; [exact Hs | reflexivity]|].
  destruct (@search_dedup_failure_is_caught (searching "" false)
              "who founded jina ai" with_keyword search_reply
              (search_for "jina ai") "jina ai"
              ["jina ai"; "jina ai founder"] "dedup failed"
              Hs eq_refl eq_refl Hq eq_refl eq_refl)
    as (h' & E & C & K & _).
  exists h'. repeat split; assumption.
Defined.

(** X18: a turn that completes ends with [storeContext] on the context
    log, the keywords and the asked questions as the turn leaves them. *)
Theorem completed_turn_ends_with_snapshot W question h h' :
  loop_body W question h = (Normal tt, h') ->
  exists before,
    trace h' = before ++ [EvStoreContext (context h') (allKeywords h')
                                         (allQuestions h')].
Proof.
  rewrite loop_body_eq.
  destruct (oracle_reply W question h) as [response|e]; [|discriminate].
  destruct (parsed response) as [a|]; [|discriminate].
  apply dispatch_stored.
Qed.

(** An instance of [completed_turn_ends_with_snapshot]. *)
Lemma completed_turn_ends_with_snapshot_witness :
  loop_body exploring "why" (initial "why") = (Normal tt, after_reflection) /\
  exists before,
    trace after_reflection
    = before ++ [EvStoreContext [] [] ["why"; "Q1"; "Q2"]].
Proof.
  assert (E : loop_body exploring "why" (initial "why")
              = (Normal tt, after_reflection))
    by (vm_compute; reflexivity).
  split; [exact E|].
  exact (@completed_turn_ends_with_snapshot exploring "why" (initial "why")
           after_reflection E).
Defined.

(** X19: when the call to the model fails, the turn and the loop end with
    its error; the step is counted and the question popped, no tokens are
    counted. *)
Theorem failed_model_call_ends_run W question h e :
  oracle_reply W question h = Rejects e ->
  exists h',
    loop_body W question h = (Thrown e, h') /\
    totalTokens h' = totalTokens h /\ step h' = S (step h) /\
    gaps h' = tl (gaps h) /\ context h' = context h /\
    forall fuel tokenBudget,
      (totalTokens h < tokenBudget)%Z ->
      while_loop W (S fuel) question tokenBudget h = (Thrown e, h').
Proof.
  intros Hreply. eexists. split; [|split; [|split; [|split; [|split]]]].
  - rewrite loop_body_eq, Hreply. reflexivity.
  - reflexivity.
  - reflexivity.
  - reflexivity.
  - reflexivity.
  - intros fuel tokenBudget Hlt. rewrite while_loop_turn by assumption.
    unfold bind. rewrite loop_body_eq, Hreply. reflexivity.
Qed.

(** An instance of [failed_model_call_ends_run]. *)
Lemma failed_model_call_ends_run_witness :
  oracle_reply silent sum_question (initial sum_question)
  = Rejects "no further reply" /\
  exists h',
    loop_body silent sum_question (initial sum_question)
    = (Thrown "no further reply", h') /\
    totalTokens h' = 0%Z.
Proof.
  assert (Hr : oracle_reply silent sum_question (initial sum_question)
               = Rejects "no further reply") by (vm_compute; reflexivity).
  split; [exact Hr|].
  destruct (@failed_model_call_ends_run silent sum_question
              (initial sum_question) "no further reply" Hr)
    as (h' & E & T & _).
  exists h'. split; [exact E | exact T].
Defined.

(** X20: when the model's reply is not JSON, the turn and the loop end
    with a syntax error, after the tokens of the call have been counted. *)
Theorem unparseable_reply_is_billed_then_thrown W question h response :
  oracle_reply W question h = Resolves response ->
  parsed response = None ->
  exists h',
    loop_body W question h = (Thrown "SyntaxError", h') /\
    totalTokens h' = (totalTokens h + token_count response)%Z /\
    gaps h' = tl (gaps h) /\ context h' = context h /\
    forall fuel tokenBudget,
      (totalTokens h < tokenBudget)%Z ->
      while_loop W (S fuel) question tokenBudget h
      = (Thrown "SyntaxError", h').
Proof.
  intros Hreply Hparsed. eexists. split; [|split; [|split; [|split]]].
  - rewrite loop_body_eq, Hreply, Hparsed. reflexivity.
  - reflexivity.
  - reflexivity.
  - reflexivity.
  - intros fuel tokenBudget Hlt. rewrite while_loop_turn by assumption.
    unfold bind. rewrite loop_body_eq, Hreply, Hparsed. reflexivity.
Qed.

(** An instance of [unparseable_reply_is_billed_then_thrown]. *)
Lemma unparseable_reply_is_billed_then_thrown_witness :
  (oracle_reply garbling sum_question (initial sum_question)
   = Resolves (mkResponse (Some 10%Z) None) /\
   parsed (mkResponse (Some 10%Z) None) = None) /\
  exists h',
    loop_body garbling sum_question (initial sum_question)
    = (Thrown "SyntaxError", h') /\
    totalTokens h' = 10%Z.
Proof.
  assert (Hr : oracle_reply garbling sum_question (initial sum_question)
               = Resolves (mkResponse (Some 10%Z) None))
    by (vm_compute; reflexivity).
  split; [split; [exact Hr | reflexivity]|].
  destruct (@unparseable_reply_is_billed_then_thrown garbling sum_question
              (initial sum_question) _ Hr eq_refl)
    as (h' & E & T & _).
  exists h'. split; [exact E | exact T].
Defined.

(** The obedient world meets the two assumptions of the bound. *)
Lemma obedient_honours_schema : honours_schema obedient.
Proof.
  intros history prompt schema response a E Hparsed Htag.
  unfold obedient in E. cbn [generateContent] in E.
  remember (existsb (String.eqb "reflect") (allowed_actions schema))
    as offered eqn:Hex in E.
  injection E as <-. cbn [parsed] in Hparsed. injection Hparsed as <-.
  destruct offered; [|discriminate].
  symmetry in Hex. split.
  - apply existsb_exists in Hex. destruct Hex as (tag & Hin & Heq).
    apply String.eqb_eq in Heq. now subst tag.
  - intros questions Hqs. injection Hqs as <-. cbn. lia.
Qed.

Lemma obedient_dedup_shrinks : dedup_shrinks obedient.
Proof.
  intros history newQueries existing kept E.
  unfold obedient in E. cbn [dedupQueries] in E. injection E as <-.
  apply filter_length_le.
Qed.

Lemma obedient_turn_reachable :
  reachable obedient "why" default_tokenBudget after_obedient_turn.
Proof.
  apply reach_turn with (h := initial "why").
  - apply reach_initial.
  - reflexivity.
  - vm_compute. reflexivity.
Qed.

(** X21: with a model that reflects only when the schema offers it, with
    at most two questions, and a deduplicator that returns no more than it
    is given, the gap queue never holds more than three questions when a
    turn starts. *)
Theorem gap_queue_stays_short W question tokenBudget h :
  honours_schema W -> dedup_shrinks W ->
  reachable W question tokenBudget h ->
  length (gaps h) <= 3.
Proof.
  intros Hschema Hdedup. induction 1 as [|h h' Hr IH _ E].
  - cbn. lia.
  - rewrite loop_body_eq in E.
    destruct (oracle_reply W question h) as [response|e] eqn:Hreply;
      [|discriminate].
    destruct (parsed response) as [a|] eqn:Hparsed; [|discriminate].
    assert (Htl : length (tl (gaps h)) <= 3)
      by (destruct (gaps h); cbn in *; lia).
    destruct (string_dec (action a) "reflect") as [Htag|Htag].
    + destruct (Hschema _ _ _ _ _ Hreply Hparsed Htag) as [Hoffered Hcap].
      assert (Hshort : length (gaps h) <= 1).
      { apply Nat.leb_le. fold (allow_reflect h).
        destruct (allow_reflect h); [reflexivity|].
        exfalso. unfold allowed_actions, getSchema in Hoffered.
        cbn in Hoffered.
        destruct Hoffered as [H0|[H0|[H0|[]]]]; discriminate. }
      apply dispatch_reflect in E; [|exact Htag].
      unfold decided in E. cbn [gaps allQuestions trace] in E.
      destruct E as [->|(questions & novel & Hqs & Hnovel & ->)];
        [exact Htl|].
      assert (Hn : length novel <= 2).
      { specialize (Hcap _ Hqs).
        destruct (allQuestions h).
        - injection Hnovel as <-. exact Hcap.
        - apply Hdedup in Hnovel. lia. }
      rewrite !length_app. cbn [length].
      destruct (gaps h) as [|g0 [|g1 rest]]; cbn in *; lia.
    + apply dispatch_keeps_queue in E; [|exact Htag].
      destruct E as [-> _]. exact Htl.
Qed.

(** An instance of [gap_queue_stays_short]. *)
Lemma gap_queue_stays_short_witness :
  (honours_schema obedient /\ dedup_shrinks obedient /\
   reachable obedient "why" default_tokenBudget after_obedient_turn) /\
  gaps after_obedient_turn = ["Q1"; "Q2"; "why"] /\
  length (gaps after_obedient_turn) <= 3.
Proof.
  split; [split; [exact obedient_honours_schema
                 | split; [exact obedient_dedup_shrinks
                          | exact obedient_turn_reachable]]|].
  split; [vm_compute; reflexivity|].
  exact (@gap_queue_stays_short obedient "why" default_tokenBudget
           after_obedient_turn obedient_honours_schema
           obedient_dedup_shrinks obedient_turn_reachable).
Defined.

(** Occurrence in appended and concatenated strings. *)
Lemma string_app_assoc (a b c : string) :
  ((a ++ b) ++ c)%string = (a ++ b ++ c)%string.
Proof.
  induction a as [|ch a IH]; [reflexivity|]. cbn. now rewrite IH.
Qed.

Lemma string_app_nil_r (a : string) : (a ++ "")%string = a.
Proof.
  induction a as [|ch a IH]; [reflexivity|]. cbn. now rewrite IH.
Qed.

Lemma occurs_refl piece : occurs piece piece.
Proof. exists "", "". cbn. now rewrite string_app_nil_r. Qed.

Lemma occurs_trans piece middle whole :
  occurs piece middle -> occurs middle whole -> occurs piece whole.
Proof.
  intros (b1 & a1 & ->) (b2 & a2 & ->).
  exists (b2 ++ b1)%string, (a1 ++ a2)%string.
  now rewrite !string_app_assoc.
Qed.

Lemma occurs_in_concat sep pieces piece :
  In piece pieces -> occurs piece (String.concat sep pieces).
Proof.
  induction pieces as [|p rest IH]; intros Hin; [destruct Hin|].
  destruct Hin as [->|Hin].
  - destruct rest as [|r rest]; [apply occurs_refl|].
    exists "", (sep ++ String.concat sep (r :: rest))%string. reflexivity.
  - destruct rest as [|r rest]; [destruct Hin|].
    destruct (IH Hin) as (before & after & E).
    exists (p ++ sep ++ before)%string, after.
    cbn [String.concat] in *. rewrite E.
    now rewrite !string_app_assoc.
Qed.

Lemma occurs_in_prompt stringify question context asked allowReflect bad piece :
  occurs piece (contextIntro stringify context) \/
  occurs piece (badContextIntro stringify bad) \/
  occurs piece (actionsDescription question asked allowReflect) ->
  occurs piece (getPrompt stringify question context asked allowReflect bad).
Proof.
  intros H. unfold getPrompt, cat, lines.
  eapply occurs_trans; [|apply occurs_in_concat; left; reflexivity].
  eapply occurs_trans; [|apply occurs_in_concat; left; reflexivity].
  destruct H as [H|[H|H]];
    (eapply occurs_trans; [exact H|]); apply occurs_in_concat; cbn; auto.
Qed.

(** X22: the prompt quotes the question verbatim, whatever the other
    arguments. *)
Theorem prompt_quotes_the_question
        stringify question context asked allowReflect bad :
  occurs question
         (getPrompt stringify question context asked allowReflect bad).
Proof.
  apply occurs_in_prompt. right. right.
  unfold actionsDescription, cat, lines.
  eapply occurs_trans; [|apply occurs_in_concat; left; reflexivity].
  apply occurs_in_concat. cbn. auto 10.
Qed.

(** X23: given a context log and a bad-attempt log that are not empty,
    [getPrompt] puts the serialisation of both in the prompt. *)
Theorem prompt_quotes_the_logs
        stringify question entry context asked allowReflect attempt bad :
  occurs (stringify (entry :: context))
         (getPrompt stringify question (Some (entry :: context)) asked
                    allowReflect (Some (attempt :: bad))) /\
  occurs (stringify (attempt :: bad))
         (getPrompt stringify question (Some (entry :: context)) asked
                    allowReflect (Some (attempt :: bad))).
Proof.
  split; apply occurs_in_prompt; [left | right; left];
    unfold contextIntro, badContextIntro, cat, lines;
    (eapply occurs_trans; [|apply occurs_in_concat; right; left; reflexivity]);
    apply occurs_in_concat; right; left; reflexivity.
Qed.

(** X24: when reflect is offered, the prompt quotes every question asked
    so far. *)
Theorem reflect_prompt_lists_asked_questions
        stringify question context asked bad earlier :
  In earlier asked ->
  occurs earlier (getPrompt stringify question context (Some asked) true bad).
Proof.
  intros Hin. apply occurs_in_prompt. right. right.
  unfold actionsDescription, reflectSection, cat, lines.
  eapply occurs_trans; [|apply occurs_in_concat; right; left; reflexivity].
  eapply occurs_trans; [|apply occurs_in_concat; right; right; left; reflexivity].
  destruct asked as [|first rest]; [destruct Hin|].
  cbn [has_length].
  eapply occurs_trans;
    [|apply occurs_in_concat; do 8 right; left; reflexivity].
  eapply occurs_trans;
    [|apply occurs_in_concat; do 3 right; left; reflexivity].
  now apply occurs_in_concat.
Qed.

(** An instance of [reflect_prompt_lists_asked_questions]. *)
Lemma reflect_prompt_lists_asked_questions_witness :
  In "Q1" ["why"; "Q1"] /\
  occurs "Q1" (getPrompt show_entries "why" (Some []) (Some ["why"; "Q1"])
                         true None).
Proof.
  assert (Hin : In "Q1" ["why"; "Q1"]) by (right; left; reflexivity).
  split; [exact Hin|].
  exact (@reflect_prompt_lists_asked_questions show_entries "why" (Some [])
           ["why"; "Q1"] None "Q1" Hin).
Defined.
